(** * Beam objects of beamconv's detector module

    A shallow embedding of [beamconv/detector.py]: the [Beam] class with its
    properties ([ghost], [ghosts], [ghost_count], [ghost_idx], [dead], [lmax],
    [fwhm], [mmax], [blm]) and its methods ([gen_gaussian_blm], [load_blm],
    [create_ghost], [reuse_blm], [delete_blm], [get_offsets]).

    Python objects live in a store indexed by references, so that a ghost
    held in its parent's [ghosts] list and a coefficient tuple shared by two
    beams are the same object seen twice. Methods are computations in a
    state-and-exception monad: a raised exception keeps the store as the
    statements before it left it. *)

From Stdlib Require Import ZArith Ascii PrimFloat FloatOps SpecFloat.
From stdpp Require Import gmap strings list.

Local Open Scope string_scope.

(** ** Exceptions *)

Inductive pyexc : Type :=
| NameError (name : string)
| AttributeError (attr : string)
| ValueError (msg : string)
| TypeError (msg : string)
| RuntimeError (msg : string)
| OverflowError (msg : string)
| IndexError (msg : string)
| IOError (path : string)
| SystemError (msg : string).

(** ** Floating point

    Python floats and [np.float64] are IEEE binary64, the kernel's [float]. *)

Module Float.

(** [np.pi] *)
Definition pi : float := 0x1.921fb54442d18p+1%float.

(** [np.radians] and [np.degrees] multiply by the rounded constants
    [pi/180] and [180/pi]. *)
Definition radians (x : float) : float := (x * (pi / 180))%float.
Definition degrees (x : float) : float := (x * (180 / pi))%float.

(** Truth value of a float: zero (of either sign) is false, everything
    else, NaN included, is true. *)
Definition truthy (x : float) : bool := negb (x =? 0)%float.

(** [x != y] *)
Definition neq (x y : float) : bool := negb (x =? y)%float.

(** [float(n)] for a Python integer: rounded to nearest, [OverflowError]
    beyond the binary64 range. *)
Definition of_int (n : Z) : pyexc + float :=
  let f := SF2Prim (binary_normalize prec emax n 0 false) in
  if is_infinity f
  then inl (OverflowError "int too large to convert to float")
  else inr f.

(** [int(x)]: truncation towards zero. *)
Definition to_int (x : float) : pyexc + Z :=
  match Prim2SF x with
  | S754_zero _ => inr 0%Z
  | S754_finite s m e =>
      let a := if (0 <=? e)%Z then (Z.pos m * 2 ^ e)%Z
               else (Z.pos m / 2 ^ (- e))%Z in
      inr (if s then (- a)%Z else a)
  | S754_infinity _ =>
      inl (OverflowError "cannot convert float infinity to integer")
  | S754_nan => inl (ValueError "cannot convert float NaN to integer")
  end.

End Float.

(** ** Data *)

(** References to [Beam] objects and to coefficient tuples. *)
Abbreviation loc := nat.
Abbreviation sref := nat.

(** Keyword options of [tools.get_copol_blm] and [tools.scale_blm]; [None]
    is a keyword that was not passed. *)
Record blm_kwargs : Type := mkBlmKwargs {
  kw_deconv_q : option bool;
  kw_normalize : option bool;
  kw_c2_fwhm : option float
}.

(** [kwargs.pop('c2_fwhm', None)] *)
Definition pop_c2_fwhm (k : blm_kwargs) : blm_kwargs :=
  mkBlmKwargs (kw_deconv_q k) (kw_normalize k) None.

(** What [np.load] returns: an array of rank 1 or 2. *)
Inductive ndarray (E : Type) : Type :=
| Arr1 (v : list E)
| Arr2 (rows : list (list E)).
Arguments Arr1 {E} v.
Arguments Arr2 {E} rows.

(** [np.atleast_2d], as the list of rows. *)
Definition atleast_2d {E} (a : ndarray E) : list (list E) :=
  match a with
  | Arr1 v => [v]
  | Arr2 rows => rows
  end.

(** The collaborators this module calls and does not define: the [tools]
    module, numpy's arithmetic on coefficients, and [os.path.splitext]. *)
Class Collaborators : Type := {
  elt : Type;
  (** one entry of [blm *= amplitude] *)
  scale_elt : float -> elt -> elt;
  (** [tools.gauss_blm(fwhm, lmax, pol=False)] *)
  gauss_blm : float -> Z -> list elt;
  (** [tools.get_copol_blm(blm, **kwargs)]: the tuple (blm, blmm2, blmp2) *)
  get_copol_blm : list elt -> blm_kwargs -> list elt * list elt * list elt;
  (** [tools.scale_blm(blm, **kwargs)] *)
  scale_blm : list (list elt) -> blm_kwargs -> list (list elt);
  (** [os.path.splitext] *)
  splitext : string -> string * string
}.

(** Calls to the collaborators and to [np.load], in the order made. *)
Inductive extcall : Type :=
| CallLoad (path : string)
| CallGauss (fwhm : float) (lmax : Z)
| CallCopol (opts : blm_kwargs)
| CallScale (opts : blm_kwargs).

(** A [Beam] instance. The attributes written directly by [__init__] are
    always there; the name-mangled ones behind properties are [None] until
    their first assignment, and reading one that is [None] is Python's
    [AttributeError]. *)
Record Beam : Type := mkBeam {
  az : float;
  el : float;
  polang : float;
  name : option string;
  pol : string;
  btype : string;
  amplitude : float;
  po_file : option string;
  eg_file : option string;
  cross_pol : bool;
  deconv_q : bool;
  normalize : bool;
  __dead : option bool;
  __lmax : option Z;
  __mmax : option Z;
  __fwhm : option float;
  __ghost : option bool;
  __ghosts : option (list loc);
  __ghost_count : option Z;
  __ghost_idx : option Z;
  __blm : option sref
}.

Definition with_btype (v : string) (b : Beam) : Beam :=
  mkBeam
    (az b) (el b) (polang b) (name b) (pol b) v (amplitude b) (po_file b)
    (eg_file b) (cross_pol b) (deconv_q b) (normalize b) (__dead b)
    (__lmax b) (__mmax b) (__fwhm b) (__ghost b) (__ghosts b)
    (__ghost_count b) (__ghost_idx b) (__blm b).

Definition with_amplitude (v : float) (b : Beam) : Beam :=
  mkBeam
    (az b) (el b) (polang b) (name b) (pol b) (btype b) v (po_file b)
    (eg_file b) (cross_pol b) (deconv_q b) (normalize b) (__dead b)
    (__lmax b) (__mmax b) (__fwhm b) (__ghost b) (__ghosts b)
    (__ghost_count b) (__ghost_idx b) (__blm b).

Definition with_dead (v : option bool) (b : Beam) : Beam :=
  mkBeam
    (az b) (el b) (polang b) (name b) (pol b) (btype b) (amplitude b)
    (po_file b) (eg_file b) (cross_pol b) (deconv_q b) (normalize b) v
    (__lmax b) (__mmax b) (__fwhm b) (__ghost b) (__ghosts b)
    (__ghost_count b) (__ghost_idx b) (__blm b).

Definition with_lmax (v : option Z) (b : Beam) : Beam :=
  mkBeam
    (az b) (el b) (polang b) (name b) (pol b) (btype b) (amplitude b)
    (po_file b) (eg_file b) (cross_pol b) (deconv_q b) (normalize b)
    (__dead b) v (__mmax b) (__fwhm b) (__ghost b) (__ghosts b)
    (__ghost_count b) (__ghost_idx b) (__blm b).

Definition with_mmax (v : option Z) (b : Beam) : Beam :=
  mkBeam
    (az b) (el b) (polang b) (name b) (pol b) (btype b) (amplitude b)
    (po_file b) (eg_file b) (cross_pol b) (deconv_q b) (normalize b)
    (__dead b) (__lmax b) v (__fwhm b) (__ghost b) (__ghosts b)
    (__ghost_count b) (__ghost_idx b) (__blm b).

Definition with_fwhm (v : option float) (b : Beam) : Beam :=
  mkBeam
    (az b) (el b) (polang b) (name b) (pol b) (btype b) (amplitude b)
    (po_file b) (eg_file b) (cross_pol b) (deconv_q b) (normalize b)
    (__dead b) (__lmax b) (__mmax b) v (__ghost b) (__ghosts b)
    (__ghost_count b) (__ghost_idx b) (__blm b).

Definition with_ghost (v : option bool) (b : Beam) : Beam :=
  mkBeam
    (az b) (el b) (polang b) (name b) (pol b) (btype b) (amplitude b)
    (po_file b) (eg_file b) (cross_pol b) (deconv_q b) (normalize b)
    (__dead b) (__lmax b) (__mmax b) (__fwhm b) v (__ghosts b)
    (__ghost_count b) (__ghost_idx b) (__blm b).

Definition with_ghosts (v : option (list loc)) (b : Beam) : Beam :=
  mkBeam
    (az b) (el b) (polang b) (name b) (pol b) (btype b) (amplitude b)
    (po_file b) (eg_file b) (cross_pol b) (deconv_q b) (normalize b)
    (__dead b) (__lmax b) (__mmax b) (__fwhm b) (__ghost b) v
    (__ghost_count b) (__ghost_idx b) (__blm b).

Definition with_ghost_count (v : option Z) (b : Beam) : Beam :=
  mkBeam
    (az b) (el b) (polang b) (name b) (pol b) (btype b) (amplitude b)
    (po_file b) (eg_file b) (cross_pol b) (deconv_q b) (normalize b)
    (__dead b) (__lmax b) (__mmax b) (__fwhm b) (__ghost b) (__ghosts b) v
    (__ghost_idx b) (__blm b).

Definition with_ghost_idx (v : option Z) (b : Beam) : Beam :=
  mkBeam
    (az b) (el b) (polang b) (name b) (pol b) (btype b) (amplitude b)
    (po_file b) (eg_file b) (cross_pol b) (deconv_q b) (normalize b)
    (__dead b) (__lmax b) (__mmax b) (__fwhm b) (__ghost b) (__ghosts b)
    (__ghost_count b) v (__blm b).

Definition with_blm (v : option sref) (b : Beam) : Beam :=
  mkBeam
    (az b) (el b) (polang b) (name b) (pol b) (btype b) (amplitude b)
    (po_file b) (eg_file b) (cross_pol b) (deconv_q b) (normalize b)
    (__dead b) (__lmax b) (__mmax b) (__fwhm b) (__ghost b) (__ghosts b)
    (__ghost_count b) (__ghost_idx b) v.

(** Arguments of [Beam.__init__], with the defaults of its signature. *)
Record init_args : Type := mkInitArgs {
  a_az : float;
  a_el : float;
  a_polang : float;
  a_name : option string;
  a_pol : string;
  a_btype : string;
  a_fwhm : option float;
  a_lmax : option Z;
  a_mmax : option Z;
  a_dead : bool;
  a_ghost : bool;
  a_amplitude : float;
  a_po_file : option string;
  a_eg_file : option string;
  a_cross_pol : bool;
  a_deconv_q : bool;
  a_normalize : bool
}.

Definition init_defaults : init_args :=
  {| a_az := 0; a_el := 0; a_polang := 0; a_name := None; a_pol := "A";
     a_btype := "Gaussian"; a_fwhm := None; a_lmax := Some 700%Z;
     a_mmax := None; a_dead := false; a_ghost := false; a_amplitude := 1;
     a_po_file := None; a_eg_file := None; a_cross_pol := true;
     a_deconv_q := true; a_normalize := true |}.

(** Keyword arguments as a caller passes them: the outer [None] is a key
    that is not in the dictionary. *)
Record kwargs : Type := mkKwargs {
  k_az : option float;
  k_el : option float;
  k_polang : option float;
  k_name : option (option string);
  k_pol : option string;
  k_btype : option string;
  k_fwhm : option (option float);
  k_lmax : option (option Z);
  k_mmax : option (option Z);
  k_dead : option bool;
  k_ghost : option bool;
  k_amplitude : option float;
  k_po_file : option (option string);
  k_eg_file : option (option string);
  k_cross_pol : option bool;
  k_deconv_q : option bool;
  k_normalize : option bool
}.

Definition no_kwargs : kwargs :=
  mkKwargs None None None None None None None None None None None None None
    None None None None.

(** Binding the keywords of a call: a keyword that is passed wins over
    the value [a] holds for that parameter. *)
Definition update_opts (k : kwargs) (a : init_args) : init_args :=
  {| a_az := default (a_az a) (k_az k);
     a_el := default (a_el a) (k_el k);
     a_polang := default (a_polang a) (k_polang k);
     a_name := default (a_name a) (k_name k);
     a_pol := default (a_pol a) (k_pol k);
     a_btype := default (a_btype a) (k_btype k);
     a_fwhm := default (a_fwhm a) (k_fwhm k);
     a_lmax := default (a_lmax a) (k_lmax k);
     a_mmax := default (a_mmax a) (k_mmax k);
     a_dead := default (a_dead a) (k_dead k);
     a_ghost := default (a_ghost a) (k_ghost k);
     a_amplitude := default (a_amplitude a) (k_amplitude k);
     a_po_file := default (a_po_file a) (k_po_file k);
     a_eg_file := default (a_eg_file a) (k_eg_file k);
     a_cross_pol := default (a_cross_pol a) (k_cross_pol k);
     a_deconv_q := default (a_deconv_q a) (k_deconv_q k);
     a_normalize := default (a_normalize a) (k_normalize k) |}.

(** [d.update(k)] on keyword dictionaries: the keys of [k] win. *)
Definition merge_kwargs (d k : kwargs) : kwargs :=
  {| k_az := from_option Some (k_az d) (k_az k);
     k_el := from_option Some (k_el d) (k_el k);
     k_polang := from_option Some (k_polang d) (k_polang k);
     k_name := from_option Some (k_name d) (k_name k);
     k_pol := from_option Some (k_pol d) (k_pol k);
     k_btype := from_option Some (k_btype d) (k_btype k);
     k_fwhm := from_option Some (k_fwhm d) (k_fwhm k);
     k_lmax := from_option Some (k_lmax d) (k_lmax k);
     k_mmax := from_option Some (k_mmax d) (k_mmax k);
     k_dead := from_option Some (k_dead d) (k_dead k);
     k_ghost := from_option Some (k_ghost d) (k_ghost k);
     k_amplitude := from_option Some (k_amplitude d) (k_amplitude k);
     k_po_file := from_option Some (k_po_file d) (k_po_file k);
     k_eg_file := from_option Some (k_eg_file d) (k_eg_file k);
     k_cross_pol := from_option Some (k_cross_pol d) (k_cross_pol k);
     k_deconv_q := from_option Some (k_deconv_q d) (k_deconv_q k);
     k_normalize := from_option Some (k_normalize d) (k_normalize k) |}.

(** [kwargs.pop('name', None)] *)
Definition pop_name (k : kwargs) : kwargs :=
  mkKwargs (k_az k) (k_el k) (k_polang k) None (k_pol k) (k_btype k)
    (k_fwhm k) (k_lmax k) (k_mmax k) (k_dead k) (k_ghost k) (k_amplitude k)
    (k_po_file k) (k_eg_file k) (k_cross_pol k) (k_deconv_q k)
    (k_normalize k).

(** [d.update(dict(ghost=v))] *)
Definition with_k_ghost (v : option bool) (k : kwargs) : kwargs :=
  mkKwargs (k_az k) (k_el k) (k_polang k) (k_name k) (k_pol k) (k_btype k)
    (k_fwhm k) (k_lmax k) (k_mmax k) (k_dead k) v (k_amplitude k)
    (k_po_file k) (k_eg_file k) (k_cross_pol k) (k_deconv_q k)
    (k_normalize k).

(** The keywords [k] with [name=v] among them. *)
Definition with_k_name (v : option string) (k : kwargs) : kwargs :=
  mkKwargs (k_az k) (k_el k) (k_polang k) (Some v) (k_pol k) (k_btype k)
    (k_fwhm k) (k_lmax k) (k_mmax k) (k_dead k) (k_ghost k) (k_amplitude k)
    (k_po_file k) (k_eg_file k) (k_cross_pol k) (k_deconv_q k)
    (k_normalize k).

(** What [reuse_blm] may be handed: any Python object. *)
Inductive pyobj : Type :=
| PyNone
| PyInt (n : Z)
| PyStr (s : string)
| PyBeam (l : loc).

(** Truth value of a string or None. *)
Definition truthy_str (s : option string) : bool :=
  match s with
  | Some (String _ _) => true
  | _ => false
  end.

(** ** Names visible in the module

    What the [import] statements and the [class] statement bind, and the
    builtins the module refers to. A free name in a method body is looked
    up here when the line runs. *)
Definition module_names : list string :=
  ["sys"; "time"; "warnings"; "glob"; "os"; "inspect"; "np"; "tools"; "Beam"].

Definition builtin_names : list string :=
  ["object"; "property"; "int"; "max"; "min"; "any"; "str"; "dict";
   "isinstance"; "None"; "AttributeError"; "ValueError"; "RuntimeError";
   "TypeError"].

Definition name_bound (n : string) : bool :=
  existsb (String.eqb n) (module_names ++ builtin_names).

(** What running a statement gives: a value, or a raised exception. *)
Inductive outcome (A : Type) : Type :=
| Ret (a : A)
| Raise (e : pyexc).
Arguments Ret {A} a.
Arguments Raise {A} e.

Section Detector.

Context `{Collaborators}.

Definition triplet : Type := list elt * list elt * list elt.

(** ** The store *)

Record World : Type := mkWorld {
  beams : gmap loc Beam;               (* the Beam objects *)
  blms : gmap sref triplet;            (* the coefficient tuples *)
  files : gmap string (ndarray elt);   (* the array files on disk *)
  calls : list extcall                 (* collaborator calls made so far *)
}.

Definition set_beams (h : gmap loc Beam) (w : World) : World :=
  mkWorld h (blms w) (files w) (calls w).
Definition set_blms (s : gmap sref triplet) (w : World) : World :=
  mkWorld (beams w) s (files w) (calls w).
Definition set_calls (c : list extcall) (w : World) : World :=
  mkWorld (beams w) (blms w) (files w) c.

(** ** The monad *)

Definition M (A : Type) : Type := World -> outcome A * World.

Definition ret {A} (a : A) : M A := fun w => (Ret a, w).

Definition raise {A} (e : pyexc) : M A := fun w => (Raise e, w).

Definition bind {A B} (m : M A) (k : A -> M B) : M B :=
  fun w =>
    match m w with
    | (Ret a, w') => k a w'
    | (Raise e, w') => (Raise e, w')
    end.

(** [try: body / except AttributeError: handler] *)
Definition try_except_AttributeError {A} (body handler : M A) : M A :=
  fun w =>
    match body w with
    | (Raise (AttributeError _), w') => handler w'
    | r => r
    end.

(** [for x in xs: body] *)
Fixpoint for_each {A} (xs : list A) (body : A -> M unit) : M unit :=
  match xs with
  | [] => ret tt
  | x :: rest => bind (body x) (fun _ => for_each rest body)
  end.

Definition lift {A} (r : pyexc + A) : M A :=
  match r with
  | inl e => raise e
  | inr a => ret a
  end.

Declare Scope py_scope.
Delimit Scope py_scope with py.
Notation "x <- c1 ;; c2" := (bind c1 (fun x => c2))
  (at level 62, c1 at next level, right associativity) : py_scope.
Notation "c1 ;;; c2" := (bind c1 (fun _ => c2))
  (at level 62, right associativity) : py_scope.
Local Open Scope py_scope.

(** ** Store access *)

(** The object behind a reference. Python references never dangle; the
    [SystemError] case is there to make the function total. *)
Definition deref (l : loc) : M Beam :=
  fun w =>
    match beams w !! l with
    | Some b => (Ret b, w)
    | None => (Raise (SystemError "dangling reference"), w)
    end.

(** The store with the object [b] behind [l]. *)
Definition put (l : loc) (b : Beam) (w : World) : World :=
  set_beams (<[l := b]> (beams w)) w.

(** An attribute assignment on the object behind [l]. *)
Definition assign (l : loc) (f : Beam -> Beam) : M unit :=
  b <- deref l ;;
  fun w => (Ret tt, put l (f b) w).

(** Reading an attribute that [__init__] writes directly. *)
Definition getattr {A} (l : loc) (proj : Beam -> A) : M A :=
  b <- deref l ;; ret (proj b).

(** Reading a name-mangled attribute. *)
Definition getpriv {A} (l : loc) (proj : Beam -> option A) (attr : string)
  : M A :=
  b <- deref l ;;
  match proj b with
  | Some v => ret v
  | None => raise (AttributeError attr)
  end.

(** Evaluating a free name. *)
Definition lookup_name (n : string) : M unit :=
  if name_bound n then ret tt else raise (NameError n).

(** [raise cls(...)]: the class name is evaluated first. *)
Definition raise_named {A} (cls : string) (e : pyexc) : M A :=
  lookup_name cls ;;; raise e.

(** A new [Beam] object. *)
Definition alloc_beam (b : Beam) : M loc :=
  fun w =>
    let l := fresh (dom (beams w)) in
    (Ret l, put l b w).

(** A new coefficient tuple. *)
Definition alloc_blm (t : triplet) : M sref :=
  fun w =>
    let r := fresh (dom (blms w)) in
    (Ret r, set_blms (<[r := t]> (blms w)) w).

Definition log (c : extcall) : M unit :=
  fun w => (Ret tt, set_calls (calls w ++ [c]) w).

(** [np.load(path)] *)
Definition np_load (path : string) : M (ndarray elt) :=
  log (CallLoad path) ;;;
  fun w =>
    match files w !! path with
    | Some a => (Ret a, w)
    | None => (Raise (IOError path), w)
    end.

(** [rows[i]] *)
Definition index {A} (rows : list A) (i : nat) : M A :=
  match rows !! i with
  | Some r => ret r
  | None => raise (IndexError "index out of bounds")
  end.

(** ** Properties *)

Definition ghost (self : loc) : M bool :=
  getpriv self __ghost "_Beam__ghost".

Definition ghosts (self : loc) : M (list loc) :=
  getpriv self __ghosts "_Beam__ghosts".

(** [ghosts] has a getter only: assigning to it is refused by the property. *)
Definition set_ghosts (self : loc) (val : list loc) : M unit :=
  raise (AttributeError "can't set attribute").

Definition ghost_count (self : loc) : M Z :=
  getpriv self __ghost_count "_Beam__ghost_count".

Definition set_ghost_count (self : loc) (count : Z) : M unit :=
  g <- ghost self ;;
  if negb g then assign self (with_ghost_count (Some count))
  else
    raise_named "ValueErrror" (ValueError "ghost cannot have ghost_count").

Definition ghost_idx (self : loc) : M Z :=
  getpriv self __ghost_idx "_Beam__ghost_idx".

Definition set_ghost_idx (self : loc) (val : Z) : M unit :=
  g <- ghost self ;;
  if g then assign self (with_ghost_idx (Some val))
  else raise_named "ValueError" (ValueError "main beam cannot have ghost_idx").

Definition dead (self : loc) : M bool :=
  getpriv self __dead "_Beam__dead".

Definition set_dead (self : loc) (val : bool) : M unit :=
  assign self (with_dead (Some val)) ;;;
  try_except_AttributeError
    (gs <- ghosts self ;;
     for_each gs (fun g => assign g (with_dead (Some val))))
    (* instance is ghost *)
    (ret tt).

Definition lmax (self : loc) : M Z :=
  getpriv self __lmax "_Beam__lmax".

Definition fwhm (self : loc) : M float :=
  getpriv self __fwhm "_Beam__fwhm".

(** [if val is None and fwhm:] reads the free name [fwhm], not the
    attribute. Whatever the module binds is a module or the class, all of
    them true, so a lookup that succeeds takes the first branch. *)
Definition set_lmax (self : loc) (val : option Z) : M unit :=
  match val with
  | None =>
      lookup_name "fwhm" ;;;
      f <- fwhm self ;;
      n <- lift (Float.to_int
                   (2 * Float.pi / Float.radians (f / 60) * 1.4)%float) ;;
      assign self (with_lmax (Some n))
  | Some v => assign self (with_lmax (Some (Z.max v 0)))
  end.

Definition set_fwhm (self : loc) (val : option float) : M unit :=
  (* not val and self.lmax *)
  c <- (if match val with Some v => Float.truthy v | None => false end
        then ret false
        else l <- lmax self ;; ret (negb (l =? 0)%Z)) ;;
  if c : bool then
    l <- lmax self ;;
    d <- lift (Float.of_int l) ;;
    let val := ((1.4 * 2 * Float.pi) / d)%float in
    assign self (with_fwhm (Some (Float.degrees val * 60)%float))
  else
    match val with
    | Some v => assign self (with_fwhm (Some (abs v)))
    | None => raise (TypeError "bad operand type for abs(): 'NoneType'")
    end.

Definition mmax (self : loc) : M Z :=
  getpriv self __mmax "_Beam__mmax".

(** [min(i for i in [mmax, self.lmax] if i is not None)] *)
Definition set_mmax (self : loc) (mmax : option Z) : M unit :=
  l <- lmax self ;;
  match omap id [mmax; Some l] with
  | [] => raise (ValueError "min() arg is an empty sequence")
  | i :: rest => assign self (with_mmax (Some (foldl Z.min i rest)))
  end.

(** The [blm] setter and deleter. *)
Definition set_blm (self : loc) (val : sref) : M unit :=
  assign self (with_blm (Some val)).

Definition del_blm (self : loc) : M unit :=
  getpriv self __blm "_Beam__blm" ;;;
  assign self (with_blm None).

(** [blm *= self.amplitude], when the amplitude is not 1 *)
Definition scaled (a : float) (row : list elt) : list elt :=
  if Float.neq a 1 then map (scale_elt a) row else row.

(** The call of [tools.get_copol_blm]; its result is a new tuple. *)
Definition copol_blm (blm : list elt) (opts : blm_kwargs) : M sref :=
  log (CallCopol opts) ;;;
  alloc_blm (get_copol_blm blm opts).

Definition gen_gaussian_blm (self : loc) : M unit :=
  f <- fwhm self ;;
  l <- lmax self ;;
  log (CallGauss f l) ;;;
  let blm := gauss_blm f l in
  a <- getattr self amplitude ;;
  let blm := scaled a blm in
  f' <- fwhm self ;;
  blm <- copol_blm blm (mkBlmKwargs None None (Some f')) ;;
  assign self (with_btype "Gaussian") ;;;
  set_blm self blm.

(** The file [load_blm] opens: [pname + ext], with [.npy] for a missing
    extension. *)
Definition npy_path (filename : string) : string :=
  let '(pname, ext) := splitext filename in
  let ext := if String.eqb ext EmptyString then ".npy" else ext in
  pname ++ ext.

(** [filename] is [po_file] or [eg_file], which default to None;
    [os.path.splitext(None)] fails on the missing string method. *)
Definition load_blm (self : loc) (filename : option string)
  (kwargs : blm_kwargs) : M unit :=
  filename <- match filename with
              | Some s => ret s
              | None => raise (AttributeError "rfind")
              end ;;
  blm <- np_load (npy_path filename) ;;
  let blm := atleast_2d blm in
  cp <- (if (length blm =? 3)%nat then getattr self cross_pol
         else ret false) ;;
  if cp : bool then
    let kwargs := pop_c2_fwhm kwargs in
    log (CallScale kwargs) ;;;
    let blm := scale_blm blm kwargs in
    a <- getattr self amplitude ;;
    let blm := if Float.neq a 1 then map (map (scale_elt a)) blm else blm in
    b0 <- index blm 0 ;;
    b1 <- index blm 1 ;;
    b2 <- index blm 2 ;;
    r <- alloc_blm (b0, b1, b2) ;;
    set_blm self r
  else
    blm <- index blm 0 ;;
    a <- getattr self amplitude ;;
    let blm := scaled a blm in
    (* create spin \pm 2 components *)
    blm <- copol_blm blm kwargs ;;
    set_blm self blm.

Definition blm (self : loc) : M sref :=
  try_except_AttributeError
    (getpriv self __blm "_Beam__blm")
    (bt <- getattr self btype ;;
     if String.eqb bt "Gaussian" then
       gen_gaussian_blm self ;;;
       getpriv self __blm "_Beam__blm"
     else if String.eqb bt "PO" then
       f <- getattr self po_file ;;
       dq <- getattr self deconv_q ;;
       nm <- getattr self normalize ;;
       load_blm self f (mkBlmKwargs (Some dq) (Some nm) None) ;;;
       getpriv self __blm "_Beam__blm"
     else if String.eqb bt "EG" then
       f <- getattr self eg_file ;;
       dq <- getattr self deconv_q ;;
       nm <- getattr self normalize ;;
       load_blm self f (mkBlmKwargs (Some dq) (Some nm) None) ;;;
       getpriv self __blm "_Beam__blm"
     else
       raise_named "ValueError"
         (ValueError ("btype = " ++ bt ++ " not recognized"))).

(** ** Construction *)

(** The object as the plain assignments of [__init__] leave it. They read
    nothing and cannot fail, so they are taken together; the property
    assignments follow in the order of the source. *)
Definition blank (a : init_args) : Beam :=
  {| az := a_az a; el := a_el a; polang := a_polang a; name := a_name a;
     pol := a_pol a; btype := a_btype a; amplitude := a_amplitude a;
     po_file := a_po_file a; eg_file := a_eg_file a;
     cross_pol := a_cross_pol a; deconv_q := a_deconv_q a;
     normalize := a_normalize a;
     __dead := None; __lmax := None; __mmax := None; __fwhm := None;
     __ghost := None; __ghosts := None; __ghost_count := None;
     __ghost_idx := None; __blm := None |}.

(** A call of [Beam] with the keywords [a]: a new object, then [__init__]
    on it. *)
Definition new_Beam (a : init_args) : M loc :=
  self <- alloc_beam (blank a) ;;
  set_dead self (a_dead a) ;;;
  set_lmax self (a_lmax a) ;;;
  set_mmax self (a_mmax a) ;;;
  set_fwhm self (a_fwhm a) ;;;
  assign self (with_ghost (Some (a_ghost a))) ;;;
  (* ghosts are not allowed to have ghosts *)
  g <- ghost self ;;
  (if negb g then
     assign self (with_ghosts (Some [])) ;;;
     set_ghost_count self 0
   else ret tt) ;;;
  ret self.

(** [__init__]'s arguments with [lmax] and [fwhm] as given. *)
Definition args_lmax_fwhm (l : option Z) (f : option float) (a : init_args)
  : init_args :=
  mkInitArgs (a_az a) (a_el a) (a_polang a) (a_name a) (a_pol a) (a_btype a)
    f l (a_mmax a) (a_dead a) (a_ghost a) (a_amplitude a) (a_po_file a)
    (a_eg_file a) (a_cross_pol a) (a_deconv_q a) (a_normalize a).

(** The round trip of the two derivations: a beam made from a width alone,
    its band limit read back, a second beam made from that band limit
    alone, and the width of the second. *)
Definition fwhm_roundtrip (F : float) : M float :=
  b1 <- new_Beam (args_lmax_fwhm None (Some F) init_defaults) ;;
  l <- lmax b1 ;;
  b2 <- new_Beam (args_lmax_fwhm (Some l) None init_defaults) ;;
  fwhm b2.

(** ** Methods *)

(** The name of a ghost of a beam called [parent_name]. *)
Definition ghost_name (tag parent_name : option string) : option string :=
  if truthy_str tag then
    if truthy_str parent_name
    then Some (default EmptyString parent_name
               ++ ("_" ++ default EmptyString tag))
    else tag
  else parent_name.

(** The keywords [create_ghost] hands to [Beam]: the parent's values,
    updated with the caller's [kwargs] (its [name] popped), then with
    [ghost=True]; what is still missing takes the default of [__init__]. *)
Definition ghost_opts (name : option string) (p_az p_el p_polang : float)
  (p_pol p_btype : string) (p_fwhm : float) (p_dead : bool)
  (p_lmax p_mmax : Z) (kwargs : kwargs) : init_args :=
  (* mostly default to parent kwargs *)
  let ghost_opts :=
    mkKwargs (Some p_az) (Some p_el) (Some p_polang) (Some name)
      (Some p_pol) (Some p_btype) (Some (Some p_fwhm)) (Some (Some p_lmax))
      (Some (Some p_mmax)) (Some p_dead) None None None None None None
      None in
  (* update options with specified kwargs *)
  let ghost_opts := merge_kwargs ghost_opts (pop_name kwargs) in
  let ghost_opts := with_k_ghost (Some true) ghost_opts in
  update_opts ghost_opts init_defaults.

Definition create_ghost (self : loc) (tag : option string) (kwargs : kwargs)
  : M unit :=
  g <- ghost self ;;
  if g : bool then
    raise_named "RuntimeError" (RuntimeError "Ghost cannot have ghosts")
  else
    parent_name <- getattr self name ;;
    let name := ghost_name tag parent_name in
    p_az <- getattr self az ;;
    p_el <- getattr self el ;;
    p_polang <- getattr self polang ;;
    p_pol <- getattr self pol ;;
    p_btype <- getattr self btype ;;
    p_fwhm <- fwhm self ;;
    p_dead <- dead self ;;
    p_lmax <- lmax self ;;
    p_mmax <- mmax self ;;
    ghost <- new_Beam (ghost_opts name p_az p_el p_polang p_pol p_btype
                         p_fwhm p_dead p_lmax p_mmax kwargs) ;;
    (* set ghost_idx *)
    c <- ghost_count self ;;
    set_ghost_idx ghost c ;;;
    c <- ghost_count self ;;
    set_ghost_count self (c + 1) ;;;
    gs <- ghosts self ;;
    assign self (with_ghosts (Some (gs ++ [ghost])%list)).

Definition reuse_blm (self : loc) (partner : pyobj) : M unit :=
  match partner with
  | PyBeam partner =>
      pg <- ghost partner ;;
      both <- (if pg : bool then ghost self else ret false) ;;
      (if both : bool then
         i <- ghost_idx partner ;;
         set_ghost_idx self i
       else ret tt) ;;;
      b <- blm partner ;;
      set_blm self b ;;;
      bt <- getattr partner btype ;;
      assign self (with_btype bt) ;;;
      l <- lmax partner ;;
      set_lmax self (Some l) ;;;
      m <- mmax partner ;;
      set_mmax self (Some m) ;;;
      a <- getattr partner amplitude ;;
      assign self (with_amplitude a)
  | _ => raise_named "TypeError" (TypeError "partner must be Beam object")
  end.

(** The two statement groups of [reuse_blm], to reason on them apart:
    the conditional on the ghost flags, and the five assignments. *)
Definition adopt_ghost_idx (self partner : loc) : M unit :=
  pg <- ghost partner ;;
  both <- (if pg : bool then ghost self else ret false) ;;
  if both : bool then
    i <- ghost_idx partner ;;
    set_ghost_idx self i
  else ret tt.

Definition copy_pointers (self partner : loc) : M unit :=
  b <- blm partner ;;
  set_blm self b ;;;
  bt <- getattr partner btype ;;
  assign self (with_btype bt) ;;;
  l <- lmax partner ;;
  set_lmax self (Some l) ;;;
  m <- mmax partner ;;
  set_mmax self (Some m) ;;;
  a <- getattr partner amplitude ;;
  assign self (with_amplitude a).

Definition delete_blm (self : loc) (del_ghosts_blm : bool) : M unit :=
  try_except_AttributeError
    (del_blm self)
    (* no blm attribute to begin with *)
    (ret tt) ;;;
  gs <- ghosts self ;;
  (* any(self.ghosts): a Beam object is true, so the list is not empty *)
  if negb (bool_decide (gs = [])) && del_ghosts_blm then
    gs <- ghosts self ;;
    for_each gs (fun ghost =>
      try_except_AttributeError (del_blm ghost) (ret tt))
  else ret tt.

Definition get_offsets (self : loc) : M (float * float * float) :=
  a <- getattr self az ;;
  e <- getattr self el ;;
  p <- getattr self polang ;;
  ret (a, e, p).

(** ** Construction in closed form

    What [__init__] computes, as functions of its arguments: the width the
    [fwhm] setter stores when the band limit is [lm], and the finished
    object. *)
Definition resolve_fwhm (val : option float) (lm : Z) : pyexc + float :=
  if match val with Some v => Float.truthy v | None => false end
     || (lm =? 0)%Z
  then
    match val with
    | Some v => inr (abs v)
    | None => inl (TypeError "bad operand type for abs(): 'NoneType'")
    end
  else
    match Float.of_int lm with
    | inl e => inl e
    | inr d => inr (Float.degrees ((1.4 * 2 * Float.pi) / d) * 60)%float
    end.

Definition built (a : init_args) (lm : Z) (fw : float) : Beam :=
  {| az := a_az a; el := a_el a; polang := a_polang a; name := a_name a;
     pol := a_pol a; btype := a_btype a; amplitude := a_amplitude a;
     po_file := a_po_file a; eg_file := a_eg_file a;
     cross_pol := a_cross_pol a; deconv_q := a_deconv_q a;
     normalize := a_normalize a;
     __dead := Some (a_dead a);
     __lmax := Some lm;
     __mmax := Some (match a_mmax a with Some m => Z.min m lm | None => lm end);
     __fwhm := Some fw;
     __ghost := Some (a_ghost a);
     __ghosts := if a_ghost a then None else Some [];
     __ghost_count := if a_ghost a then None else Some 0%Z;
     __ghost_idx := None;
     __blm := None |}.

(** ** Programs

    What a caller can do to the store through the class, deletion of
    coefficients apart: one constructor per public operation. *)
Inductive operation : Type :=
| OpNew (a : init_args)
| OpSetGhostCount (l : loc) (count : Z)
| OpSetGhostIdx (l : loc) (val : Z)
| OpSetDead (l : loc) (val : bool)
| OpSetLmax (l : loc) (val : option Z)
| OpSetFwhm (l : loc) (val : option float)
| OpSetMmax (l : loc) (val : option Z)
| OpSetBtype (l : loc) (val : string)
| OpSetAmplitude (l : loc) (val : float)
| OpGetBlm (l : loc)
| OpSetBlm (l : loc) (val : sref)
| OpGenGaussianBlm (l : loc)
| OpLoadBlm (l : loc) (filename : option string) (kwargs : blm_kwargs)
| OpCreateGhost (l : loc) (tag : option string) (kwargs : kwargs)
| OpReuseBlm (l : loc) (partner : pyobj)
| OpGetOffsets (l : loc).

Definition perform (o : operation) : M unit :=
  match o with
  | OpNew a => new_Beam a ;;; ret tt
  | OpSetGhostCount l count => set_ghost_count l count
  | OpSetGhostIdx l val => set_ghost_idx l val
  | OpSetDead l val => set_dead l val
  | OpSetLmax l val => set_lmax l val
  | OpSetFwhm l val => set_fwhm l val
  | OpSetMmax l val => set_mmax l val
  | OpSetBtype l val => assign l (with_btype val)
  | OpSetAmplitude l val => assign l (with_amplitude val)
  | OpGetBlm l => blm l ;;; ret tt
  | OpSetBlm l val => set_blm l val
  | OpGenGaussianBlm l => gen_gaussian_blm l
  | OpLoadBlm l filename kwargs => load_blm l filename kwargs
  | OpCreateGhost l tag kwargs => create_ghost l tag kwargs
  | OpReuseBlm l partner => reuse_blm l partner
  | OpGetOffsets l => get_offsets l ;;; ret tt
  end.

(** The beam an operation stores coefficients on, if it is one of those
    that do. *)
Definition blm_target (o : operation) : option loc :=
  match o with
  | OpSetBlm l _ | OpGenGaussianBlm l | OpLoadBlm l _ _ | OpReuseBlm l _ =>
      Some l
  | _ => None
  end.

(** The operations that store coefficients on [self]. *)
Definition assigns_blm_of (self : loc) (o : operation) : bool :=
  bool_decide (blm_target o = Some self).

(** The store after a sequence of operations; an operation that raises
    leaves the store as it was when it stopped, and the next one runs. *)
Fixpoint perform_all (ops : list operation) (w : World) : World :=
  match ops with
  | [] => w
  | o :: rest => perform_all rest (snd (perform o w))
  end.

(** The beam [self] holds the coefficient tuple [r], whose content is [t]. *)
Definition cached (self : loc) (r : sref) (t : triplet) (w : World) : Prop :=
  (exists b, beams w !! self = Some b /\ __blm b = Some r) /\
  blms w !! r = Some t.

(** The beam [self] holds some coefficient tuple. *)
Definition holds_blm (self : loc) (w : World) : Prop :=
  exists b r, beams w !! self = Some b /\ __blm b = Some r.

(** [materialised w p b r w']: from [w] to [w'], the beam [p], which was
    [b], has received the new coefficient tuple [r]; a collaborator was
    called for it, and nothing else has changed. *)
Definition materialised (w : World) (p : loc) (b : Beam) (r : sref)
  (w' : World) : Prop :=
  beams w' = <[p := with_blm (Some r) b]> (beams w) /\
  blms w !! r = None /\ is_Some (blms w' !! r) /\
  (forall r', r' <> r -> blms w' !! r' = blms w !! r') /\
  files w' = files w /\
  exists c cs, calls w' = (calls w ++ c :: cs)%list.

(** [preserves J m]: running [m] keeps the property [J] of the store,
    whether [m] returns or raises. *)
Definition preserves {A} (J : World -> Prop) (m : M A) : Prop :=
  forall w, J w -> J (snd (m w)).

(** ** Programs with deletion

    The operations above together with the two ways of dropping
    coefficients, [del b.blm] and [delete_blm]. Reading a property changes
    nothing and is left out. *)
Inductive action : Type :=
| Do (o : operation)
| DoDelBlm (l : loc)
| DoDeleteBlm (l : loc) (del_ghosts_blm : bool).

Definition act (a : action) : M unit :=
  match a with
  | Do o => perform o
  | DoDelBlm l => del_blm l
  | DoDeleteBlm l del_ghosts_blm => delete_blm l del_ghosts_blm
  end.

(** The store after a sequence of actions, failed ones included. *)
Fixpoint act_all (acts : list action) (w : World) : World :=
  match acts with
  | [] => w
  | a :: rest => act_all rest (snd (act a w))
  end.

(** ** What the class keeps *)

(** The attributes that [__init__] assigns and no other method does. *)
Definition identity (b : Beam) :=
  (az b, el b, polang b, name b, pol b, po_file b, eg_file b, cross_pol b,
   deconv_q b, normalize b, __ghost b).

(** The beam behind [l] still has the identity of [b0]. *)
Definition anchored (l : loc) (b0 : Beam) (w : World) : Prop :=
  exists b, beams w !! l = Some b /\ identity b = identity b0.

(** No beam has a negative band limit. *)
Definition lmax_nonneg (w : World) : Prop :=
  forall l b (v : Z), beams w !! l = Some b -> __lmax b = Some v -> (0 <= v)%Z.

Definition unset {A} (o : option A) : bool :=
  match o with
  | None => true
  | Some _ => false
  end.

(** The attributes of the two roles exclude each other: a ghost has neither
    [ghosts] nor [ghost_count], a main beam has no [ghost_idx], and an
    object whose role is not assigned yet has none of the three. *)
Definition role_ok (b : Beam) : bool :=
  match __ghost b with
  | Some true => unset (__ghosts b) && unset (__ghost_count b)
  | Some false => unset (__ghost_idx b)
  | None =>
      unset (__ghosts b) && unset (__ghost_count b) && unset (__ghost_idx b)
  end.

Definition roles_exclusive (w : World) : Prop :=
  forall l b, beams w !! l = Some b -> role_ok b = true.

(** The beam behind [l] has a list of ghosts that starts with [gs0]. *)
Definition keeps_ghosts (l : loc) (gs0 : list loc) (w : World) : Prop :=
  exists b gs,
    beams w !! l = Some b /\ __ghosts b = Some gs /\ gs0 `prefix_of` gs.

(** [g] is a ghost beam of the store. *)
Definition ghost_in (g : loc) (w : World) : Prop :=
  exists bg, beams w !! g = Some bg /\ __ghost bg = Some true.

(** Every entry of a list of ghosts is a ghost beam of the store. *)
Definition family_ok (w : World) : Prop :=
  forall p bp gs g,
    beams w !! p = Some bp -> __ghosts bp = Some gs -> g ∈ gs ->
    ghost_in g w.

(** The beam behind [l] has the width [f0]. *)
Definition width_kept (l : loc) (f0 : float) (w : World) : Prop :=
  exists b, beams w !! l = Some b /\ __fwhm b = Some f0.

(** The actions that assign [fwhm] on [self]. *)
Definition assigns_fwhm_of (self : loc) (a : action) : bool :=
  match a with
  | Do (OpSetFwhm l _) => bool_decide (l = self)
  | _ => false
  end.

(** The count of every main beam is the length of its list of ghosts. *)
Definition count_matches (w : World) : Prop :=
  forall l b gs (c : Z),
    beams w !! l = Some b -> __ghosts b = Some gs ->
    __ghost_count b = Some c -> c = Z.of_nat (length gs).

(** The actions that assign [ghost_count]. *)
Definition assigns_ghost_count (a : action) : bool :=
  match a with
  | Do (OpSetGhostCount _ _) => true
  | _ => false
  end.

(** The assignments that touch neither the band limit, nor the width, nor
    the role, nor the list of ghosts. *)
Inductive plain_update : (Beam -> Beam) -> Prop :=
| plain_dead v : plain_update (with_dead v)
| plain_mmax v : plain_update (with_mmax v)
| plain_btype v : plain_update (with_btype v)
| plain_amplitude v : plain_update (with_amplitude v)
| plain_blm v : plain_update (with_blm v).

(** The coefficients [gen_gaussian_blm] stores for a beam of width [f],
    band limit [lm] and amplitude [a]. *)
Definition gaussian_triplet (f : float) (lm : Z) (a : float) : triplet :=
  get_copol_blm (scaled a (gauss_blm f lm)) (mkBlmKwargs None None (Some f)).

End Detector.

(** ** A concrete setting

    Stand-ins for the collaborators, to run the methods on actual stores:
    real coefficients, a flat beam for [gauss_blm], the co-polar row copied
    for the spin components, no rescaling, and the POSIX [splitext]. *)
Module Demo.

Fixpoint rfind_from (c : ascii) (s : string) (i : nat) (last : option nat)
  : option nat :=
  match s with
  | EmptyString => last
  | String a rest =>
      rfind_from c rest (S i) (if Ascii.eqb a c then Some i else last)
  end.

Definition rfind (c : ascii) (s : string) : option nat :=
  rfind_from c s 0 None.

Definition posix_splitext (p : string) : string * string :=
  match rfind "."%char p with
  | None => (p, EmptyString)
  | Some d =>
      let start := from_option S 0 (rfind "/"%char p) in
      let stem :=
        String.list_ascii_of_string (String.substring start (d - start) p) in
      if existsb (fun c => negb (Ascii.eqb c "."%char)) stem
      then (String.substring 0 d p,
            String.substring d (String.length p - d) p)
      else (p, EmptyString)
  end.

Definition collaborators : Collaborators :=
  {| elt := float;
     scale_elt := fun a x => (a * x)%float;
     gauss_blm := fun _ l => repeat 1%float (Z.to_nat (l + 1));
     get_copol_blm := fun blm _ => (blm, blm, blm);
     scale_blm := fun rows _ => rows;
     splitext := posix_splitext |}.

#[local] Existing Instance collaborators.

(** Nothing allocated, no files. *)
Definition w_empty : World := mkWorld ∅ ∅ ∅ [].

(** After [main = Beam()]. *)
Definition main : loc := 0.
Definition w_main : World := snd (new_Beam init_defaults w_empty).

(** The object [Beam()] has made. *)
Definition main_beam : Beam :=
  Eval vm_compute in default (blank init_defaults) (beams w_main !! main).

(** After [main.create_ghost()]: the ghost is object 1. *)
Definition first_ghost : loc := 1.
Definition w_family : World :=
  snd (create_ghost main (Some "ghost") no_kwargs w_main).

(** After [main.dead = True] on the family, and then a ghost made with
    [dead=False]. *)
Definition kw_dead (v : bool) : kwargs :=
  mkKwargs None None None None None None None None None (Some v) None None
    None None None None None.
Definition w_family_dead : World := snd (set_dead main true w_family).
Definition w_family_late : World :=
  snd (create_ghost main (Some "late") (kw_dead false) w_family_dead).

(** After [main = Beam()] and [second = Beam()]. *)
Definition second : loc := 1.
Definition w_pair : World := snd (new_Beam init_defaults w_main).

(** The pair after [main.lmax = 10], and after [second.reuse_blm(main)]
    on top of that. *)
Definition w_pair_narrow : World := snd (set_lmax main (Some 10%Z) w_pair).
Definition w_pair_shared : World :=
  snd (reuse_blm second (PyBeam main) w_pair_narrow).

(** The main beam next to a beam of a type the module does not know. *)
Definition odd : loc := 1.
Definition w_odd : World :=
  snd (new_Beam
         (mkInitArgs 0 0 0 None "A" "Airy" None (Some 700%Z) None false false
            1 None None true true true)
         w_main).

(** The main beam once its coefficients have been read. *)
Definition w_cached : World := snd (blm main w_main).

(** The main beam next to two coefficient files: a co-polar row, and a
    triplet of rows. *)
Definition w_disk : World :=
  mkWorld (beams w_main) ∅
    (<["copol.npy" := Arr1 [1; 0.5]%float]>
       (<["triplet.npy" :=
            Arr2 [[1; 0.5]; [0; 0.25]; [0; 0.125]]%float]> ∅))
    [].

(** A beam of amplitude 2, with [cross_pol] as given, next to the same
    two files; and keywords with all three options. *)
Definition loud_args (cp : bool) : init_args :=
  mkInitArgs 0 0 0 None "A" "PO" None (Some 700%Z) None false false 2 None
    None cp true true.
Definition w_loud (cp : bool) : World :=
  mkWorld (beams (snd (new_Beam (loud_args cp) w_empty))) ∅ (files w_disk) [].
Definition loud_beam (cp : bool) : Beam :=
  default (blank (loud_args cp)) (beams (w_loud cp) !! main).
Definition kw_all : blm_kwargs :=
  mkBlmKwargs (Some true) (Some true) (Some 30%float).

(** The family of [main]: the beam once [first_ghost] is registered. *)
Definition family_beam : Beam :=
  with_ghosts (Some [first_ghost]) (with_ghost_count (Some 1%Z) main_beam).

(** After [Beam(ghost=True)] next to [main]. *)
Definition ghost_args : init_args :=
  mkInitArgs 0 0 0 None "A" "Gaussian" None (Some 700%Z) None false true 1
    None None true true true.
Definition direct : loc := 1.
Definition w_direct : World := snd (new_Beam ghost_args w_main).

(** The family with a second ghost, of a type the module does not know. *)
Definition kw_btype (s : string) : kwargs :=
  mkKwargs None None None None None (Some s) None None None None None None
    None None None None None.
Definition odd_ghost : loc := 2.
Definition w_ghosts : World :=
  snd (create_ghost main (Some "odd") (kw_btype "Airy") w_family).
Definition ghost1 : Beam :=
  Eval vm_compute in default main_beam (beams w_ghosts !! first_ghost).
Definition ghost2 : Beam :=
  Eval vm_compute in default main_beam (beams w_ghosts !! odd_ghost).

(** The keywords [lmax=None]. *)
Definition kw_lmax_None : kwargs :=
  mkKwargs None None None None None None None (Some None) None None None
    None None None None None None.

(** A beam of type 'PO' and amplitude 2 that names the file of one row,
    without its extension. *)
Definition po_args : init_args :=
  mkInitArgs 0 0 0 None "A" "PO" None (Some 700%Z) None false false 2
    (Some "copol") None true true false.
Definition w_po : World :=
  mkWorld (beams (snd (new_Beam po_args w_empty))) ∅ (files w_disk) [].
Definition po_beam : Beam :=
  Eval vm_compute in default main_beam (beams w_po !! main).

(** A session on the family: a ghost is made, the band limit is set below
    zero, coefficients are read, shared, and deleted twice over, a third
    beam is built and the ghost gets another index. *)
Definition session : list action :=
  [Do (OpCreateGhost main (Some "ghost") no_kwargs);
   Do (OpSetLmax main (Some (-5)%Z));
   Do (OpSetMmax main None);
   Do (OpSetDead main true);
   Do (OpGetBlm main);
   Do (OpReuseBlm first_ghost (PyBeam main));
   DoDeleteBlm main true;
   DoDelBlm main;
   Do (OpNew init_defaults);
   Do (OpSetGhostIdx first_ghost 3%Z)].

End Demo.

(** * Proofs *)

Section Proofs.

Context `{Collaborators}.

Implicit Types (w : World) (l self : loc) (b : Beam).

(** ** Running the monad *)

Lemma bind_ret_run {A B} (m : M A) (k : A -> M B) w a w' :
  m w = (Ret a, w') -> bind m k w = k a w'.
Proof. intros E. unfold bind. by rewrite E. Qed.

Lemma bind_raise_run {A B} (m : M A) (k : A -> M B) w e w' :
  m w = (Raise e, w') -> bind m k w = (Raise e, w').
Proof. intros E. unfold bind. by rewrite E. Qed.

Lemma beams_put_eq w l b : beams (put l b w) !! l = Some b.
Proof. apply lookup_insert_eq. Qed.

Lemma beams_put_ne w l l' b :
  l <> l' -> beams (put l b w) !! l' = beams w !! l'.
Proof. intros. by apply lookup_insert_ne. Qed.

Lemma put_put w l b b' : put l b' (put l b w) = put l b' w.
Proof. unfold put, set_beams. cbn. by rewrite insert_insert_eq. Qed.

Lemma blms_put w l b : blms (put l b w) = blms w.
Proof. reflexivity. Qed.

Lemma calls_put w l b : calls (put l b w) = calls w.
Proof. reflexivity. Qed.

Lemma files_put w l b : files (put l b w) = files w.
Proof. reflexivity. Qed.

Lemma fresh_blm_unused w : blms w !! fresh (dom (blms w)) = None.
Proof. apply not_elem_of_dom, is_fresh. Qed.

Lemma fresh_beam_unused w : beams w !! fresh (dom (beams w)) = None.
Proof. apply not_elem_of_dom, is_fresh. Qed.

#[local] Opaque put.

Ltac mstep :=
  first
    [ rewrite beams_put_eq
    | rewrite beams_put_ne by (done || congruence)
    | rewrite blms_put
    | rewrite calls_put
    | rewrite files_put
    | rewrite put_put
    | match goal with
      | E : beams ?w !! ?l = _ |- context [beams ?w !! ?l] => rewrite E
      end
    | match goal with
      | E : ?f ?b = _ |- context [?f ?b] => rewrite E
      end
    | progress simpl
    | progress
        unfold bind, ret, raise, raise_named, lookup_name, deref, assign,
          getattr, getpriv, try_except_AttributeError, lift, ghost, ghosts,
          ghost_count, ghost_idx, dead, lmax, fwhm, mmax, set_ghost_count,
          set_ghost_idx, set_blm ].

Ltac mrun := repeat mstep.

Ltac wsimp :=
  rewrite ?blms_put, ?calls_put, ?files_put, ?beams_put_eq;
  cbn [blms beams calls files set_blms set_calls set_beams].

(** ** Accessors on an allocated object *)

Lemma deref_run w l b : beams w !! l = Some b -> deref l w = (Ret b, w).
Proof. intros E. by mrun. Qed.

Lemma assign_run w l b f :
  beams w !! l = Some b -> assign l f w = (Ret tt, put l (f b) w).
Proof. intros E. by mrun. Qed.

Lemma getattr_run {A} w l b (proj : Beam -> A) :
  beams w !! l = Some b -> getattr l proj w = (Ret (proj b), w).
Proof. intros E. by mrun. Qed.

Lemma getpriv_run {A} w l b (proj : Beam -> option A) attr v :
  beams w !! l = Some b -> proj b = Some v ->
  getpriv l proj attr w = (Ret v, w).
Proof. intros E Ev. by mrun. Qed.

Lemma getpriv_missing {A} w l b (proj : Beam -> option A) attr :
  beams w !! l = Some b -> proj b = None ->
  getpriv l proj attr w = (Raise (AttributeError attr), w).
Proof. intros E Ev. by mrun. Qed.

Lemma ghost_run w l b g :
  beams w !! l = Some b -> __ghost b = Some g -> ghost l w = (Ret g, w).
Proof. intros. unfold ghost. by erewrite getpriv_run. Qed.

Lemma set_lmax_Some w self b v :
  beams w !! self = Some b ->
  set_lmax self (Some v) w
  = (Ret tt, put self (with_lmax (Some (Z.max v 0)) b) w).
Proof. intros E. unfold set_lmax. by apply assign_run. Qed.

Lemma set_dead_no_ghosts w self b v :
  beams w !! self = Some b -> __ghosts b = None ->
  set_dead self v w = (Ret tt, put self (with_dead (Some v) b) w).
Proof. intros E Eg. unfold set_dead, ghosts. mrun. reflexivity. Qed.

Lemma set_mmax_run w self b m lm :
  beams w !! self = Some b -> __lmax b = Some lm ->
  set_mmax self m w
  = (Ret tt,
     put self
       (with_mmax (Some (match m with Some m => Z.min m lm | None => lm end))
          b) w).
Proof. intros E El. unfold set_mmax, lmax. destruct m; mrun; reflexivity. Qed.

Lemma set_fwhm_run w self b val lm :
  beams w !! self = Some b -> __lmax b = Some lm ->
  set_fwhm self val w
  = match resolve_fwhm val lm with
    | inl e => (Raise e, w)
    | inr fw => (Ret tt, put self (with_fwhm (Some fw) b) w)
    end.
Proof.
  intros E El. unfold set_fwhm, resolve_fwhm, lmax.
  destruct val as [v|]; [destruct (Float.truthy v) eqn:Et|];
    destruct (lm =? 0)%Z eqn:Ez; try destruct (Float.of_int lm) eqn:Ei;
    mrun; reflexivity.
Qed.

#[local] Arguments new_Beam : simpl never.
#[local] Arguments set_fwhm : simpl never.
#[local] Arguments set_mmax : simpl never.
#[local] Arguments set_lmax : simpl never.
#[local] Arguments set_dead : simpl never.
#[local] Arguments blm : simpl never.
#[local] Arguments resolve_fwhm : simpl never.

(** ** Construction *)

Lemma new_Beam_run a w v :
  a_lmax a = Some v ->
  new_Beam a w
  = let l := fresh (dom (beams w)) in
    match resolve_fwhm (a_fwhm a) (Z.max v 0) with
    | inl e =>
        (Raise e,
         put l
           (with_mmax
              (Some (match a_mmax a with
                     | Some m => Z.min m (Z.max v 0)
                     | None => Z.max v 0
                     end))
              (with_lmax (Some (Z.max v 0))
                 (with_dead (Some (a_dead a)) (blank a)))) w)
    | inr fw => (Ret l, put l (built a (Z.max v 0) fw) w)
    end.
Proof.
  intros Ev. unfold new_Beam. rewrite Ev.
  erewrite (bind_ret_run (alloc_beam _)); [|reflexivity].
  erewrite (bind_ret_run (set_dead _ _));
    [|by apply set_dead_no_ghosts; [apply beams_put_eq|]].
  rewrite put_put.
  erewrite (bind_ret_run (set_lmax _ _));
    [|by apply set_lmax_Some, beams_put_eq].
  rewrite put_put.
  erewrite (bind_ret_run (set_mmax _ _));
    [|by eapply set_mmax_run; [apply beams_put_eq|]].
  rewrite put_put. unfold bind at 1.
  erewrite set_fwhm_run; [|apply beams_put_eq|reflexivity].
  destruct (resolve_fwhm (a_fwhm a) (Z.max v 0)) as [e|fw]; [done|].
  rewrite put_put. unfold set_ghost_count, ghost.
  destruct (a_ghost a) eqn:Eg; mrun; unfold built; rewrite Eg; reflexivity.
Qed.

Lemma new_Beam_inv a w l w' :
  new_Beam a w = (Ret l, w') ->
  exists v fw,
    a_lmax a = Some v /\ resolve_fwhm (a_fwhm a) (Z.max v 0) = inr fw /\
    l = fresh (dom (beams w)) /\ w' = put l (built a (Z.max v 0) fw) w.
Proof.
  destruct (a_lmax a) as [v|] eqn:Ev.
  - rewrite (new_Beam_run a w v Ev). cbn zeta.
    destruct (resolve_fwhm (a_fwhm a) (Z.max v 0)) as [e|fw] eqn:Er; [done|].
    intros [= <- <-]. by exists v, fw.
  - intros E. assert (fst (new_Beam a w) = Raise (NameError "fwhm")) as E'.
    { unfold new_Beam, alloc_beam, set_dead, ghosts, set_lmax. by mrun. }
    by rewrite E in E'.
Qed.

Lemma fresh_beam_ne w l b :
  beams w !! l = Some b -> fresh (dom (beams w)) <> l.
Proof.
  intros E Hl. pose proof (is_fresh (dom (beams w))) as Hf.
  rewrite Hl in Hf. apply Hf, elem_of_dom. eauto.
Qed.

Ltac crun := unfold create_ghost; mrun.

Lemma create_ghost_run w p b tag kw pf pd pl pm c gs v fw :
  beams w !! p = Some b -> __ghost b = Some false ->
  __fwhm b = Some pf -> __dead b = Some pd ->
  __lmax b = Some pl -> __mmax b = Some pm ->
  __ghost_count b = Some c -> __ghosts b = Some gs ->
  let a := ghost_opts (ghost_name tag (name b)) (az b) (el b) (polang b)
             (pol b) (btype b) pf pd pl pm kw in
  a_lmax a = Some v -> resolve_fwhm (a_fwhm a) (Z.max v 0) = inr fw ->
  let g := fresh (dom (beams w)) in
  create_ghost p tag kw w
  = (Ret tt,
     put p (with_ghosts (Some (gs ++ [g])%list)
              (with_ghost_count (Some (c + 1)%Z) b))
       (put g (with_ghost_idx (Some c) (built a (Z.max v 0) fw)) w)).
Proof.
  intros Eb Hg Hf Hd Hl Hm Hc Hgs a Ev Er g.
  assert (g <> p) as Hne by (by eapply fresh_beam_ne).
  crun. fold a. rewrite (new_Beam_run a w v Ev). cbn zeta. rewrite Er.
  fold g. mrun. reflexivity.
Qed.

Lemma create_ghost_inv w p b tag kw w' :
  beams w !! p = Some b ->
  create_ghost p tag kw w = (Ret tt, w') ->
  exists pf pd pl pm c gs v fw,
    __ghost b = Some false /\ __fwhm b = Some pf /\ __dead b = Some pd /\
    __lmax b = Some pl /\ __mmax b = Some pm /\
    __ghost_count b = Some c /\ __ghosts b = Some gs /\
    let a := ghost_opts (ghost_name tag (name b)) (az b) (el b) (polang b)
               (pol b) (btype b) pf pd pl pm kw in
    let g := fresh (dom (beams w)) in
    a_lmax a = Some v /\ resolve_fwhm (a_fwhm a) (Z.max v 0) = inr fw /\
    w' = put p (with_ghosts (Some (gs ++ [g])%list)
                  (with_ghost_count (Some (c + 1)%Z) b))
           (put g (with_ghost_idx (Some c) (built a (Z.max v 0) fw)) w).
Proof.
  intros Eb. pose proof (fresh_beam_ne _ _ _ Eb) as Hne.
  destruct (__ghost b) as [[|]|] eqn:Hg; [by crun| |by crun].
  destruct (__fwhm b) as [pf|] eqn:Hf; [|by crun].
  destruct (__dead b) as [pd|] eqn:Hd; [|by crun].
  destruct (__lmax b) as [pl|] eqn:Hl; [|by crun].
  destruct (__mmax b) as [pm|] eqn:Hm; [|by crun].
  crun.
  match goal with
  | |- context [new_Beam ?a ?w] =>
      destruct (new_Beam a w) as [[g|e] w1] eqn:En; [|done]
  end.
  apply new_Beam_inv in En as (v & fw & Ev & Er & -> & ->).
  destruct (__ghost_count b) as [c|] eqn:Hc; [|by mrun].
  destruct (__ghosts b) as [gs|] eqn:Hgs; [|by mrun].
  mrun. intros [= <-].
  by exists pf, pd, pl, pm, c, gs, v, fw.
Qed.

(** ** Ghosts *)

Lemma ghost_opts_name nm p_az p_el p_polang p_pol p_btype pf pd pl pm kw :
  a_name (ghost_opts nm p_az p_el p_polang p_pol p_btype pf pd pl pm kw) = nm.
Proof. reflexivity. Qed.

Lemma ghost_opts_ghost nm p_az p_el p_polang p_pol p_btype pf pd pl pm kw :
  a_ghost (ghost_opts nm p_az p_el p_polang p_pol p_btype pf pd pl pm kw)
  = true.
Proof. reflexivity. Qed.

Lemma ghost_opts_dead nm p_az p_el p_polang p_pol p_btype pf pd pl pm kw :
  a_dead (ghost_opts nm p_az p_el p_polang p_pol p_btype pf pd pl pm kw)
  = default pd (k_dead kw).
Proof. unfold ghost_opts. simpl. by destruct (k_dead kw). Qed.

Lemma ghost_opts_plain nm p_az p_el p_polang p_pol p_btype pf pd pl pm :
  let a := ghost_opts nm p_az p_el p_polang p_pol p_btype pf pd pl pm
             no_kwargs in
  a_lmax a = Some pl /\ a_fwhm a = Some pf.
Proof. by split. Qed.

(** What a successful [create_ghost] leaves: a new object [g] for the
    ghost, the parent with one more ghost, and everything else as it was. *)
Lemma create_ghost_spec w p b tag kw w' :
  beams w !! p = Some b ->
  create_ghost p tag kw w = (Ret tt, w') ->
  exists g bg bp c gs d,
    beams w !! g = None /\
    __ghost b = Some false /\ __ghost_count b = Some c /\
    __ghosts b = Some gs /\ __dead b = Some d /\
    beams w' !! g = Some bg /\ beams w' !! p = Some bp /\
    (forall l, l <> p -> l <> g -> beams w' !! l = beams w !! l) /\
    blms w' = blms w /\ calls w' = calls w /\
    name bg = ghost_name tag (name b) /\
    __ghost bg = Some true /\ __ghost_idx bg = Some c /\
    __dead bg = Some (default d (k_dead kw)) /\
    __ghosts bg = None /\ __blm bg = None /\
    bp = with_ghosts (Some (gs ++ [g])%list)
           (with_ghost_count (Some (c + 1)%Z) b).
Proof.
  intros Eb Hrun.
  destruct (create_ghost_inv _ _ _ _ _ _ Eb Hrun)
    as (pf & pd & pl & pm & c & gs & v & fw & Hg & Hf & Hd & Hl & Hm & Hc
        & Hgs & Hrest).
  cbn zeta in Hrest. destruct Hrest as (Ev & Er & ->).
  pose proof (fresh_beam_ne _ _ _ Eb) as Hne.
  eexists (fresh (dom (beams w))), _, _, c, gs, pd.
  split; [apply fresh_beam_unused|].
  do 4 (split; [done|]).
  split; [by rewrite beams_put_ne, beams_put_eq|].
  split; [by rewrite beams_put_eq|].
  split; [by intros l ? ?; rewrite !beams_put_ne|].
  rewrite !blms_put, !calls_put. do 2 (split; [done|]).
  split; [done|]. split; [done|]. split; [done|].
  split; [|done].
  cbn [__dead with_ghost_idx built]. f_equal. apply ghost_opts_dead.
Qed.

Lemma ghost_name_tagged t n :
  t <> EmptyString -> n <> EmptyString ->
  ghost_name (Some t) (Some n) = Some (n ++ "_" ++ t).
Proof. by destruct t, n. Qed.

Lemma ghost_name_unnamed t pn :
  t <> EmptyString -> pn = None \/ pn = Some EmptyString ->
  ghost_name (Some t) pn = Some t.
Proof. by destruct t; intros ? [->| ->]. Qed.

Lemma ghost_name_untagged tag pn :
  tag = None \/ tag = Some EmptyString -> ghost_name tag pn = pn.
Proof. by intros [->| ->]. Qed.

(** ** The band limit left unspecified *)

(** C1. Assigning None to [lmax] evaluates the free name [fwhm] and raises
    NameError, whatever the beam holds; so does constructing a Beam with
    [lmax=None], whatever [fwhm] is passed along. Nothing is derived. *)
Theorem lmax_None_raises_NameError w self (fw : option float) (a : init_args) :
  set_lmax self None w = (Raise (NameError "fwhm"), w) /\
  fst (new_Beam (args_lmax_fwhm None fw a) w) = Raise (NameError "fwhm").
Proof.
  split; [reflexivity|].
  unfold new_Beam, alloc_beam, set_dead, ghosts, set_lmax. mrun. reflexivity.
Qed.

(** C5. The round trip stops at its first step: the beam with a width and
    no band limit is never built. *)
Theorem fwhm_roundtrip_raises_NameError (F : float) w :
  fst (fwhm_roundtrip F w) = Raise (NameError "fwhm").
Proof.
  unfold fwhm_roundtrip, new_Beam, alloc_beam, set_dead, ghosts, set_lmax.
  mrun. reflexivity.
Qed.

(** ** Operations of the wrong role *)

(** C3. Operations of the wrong role fail and leave the store as it was,
    but not all with a validation error. Assigning [ghost_count] on a ghost
    reaches [raise ValueErrror(...)], a name that is bound nowhere, and
    raises NameError; the sibling setter of [ghost_idx] raises the
    ValueError that was meant, on a main beam. Assigning [ghosts] is
    refused by the property with AttributeError, [create_ghost] on a ghost
    raises RuntimeError, and reading [ghost_idx] on a main beam, which was
    never assigned, raises AttributeError. *)
Theorem invalid_role_operations w g bg m bm :
  beams w !! g = Some bg -> __ghost bg = Some true ->
  beams w !! m = Some bm -> __ghost bm = Some false ->
  __ghost_idx bm = None ->
  (forall c, set_ghost_count g c w = (Raise (NameError "ValueErrror"), w)) /\
  (forall v, set_ghosts g v w
             = (Raise (AttributeError "can't set attribute"), w)) /\
  (forall tag kw, create_ghost g tag kw w
                  = (Raise (RuntimeError "Ghost cannot have ghosts"), w)) /\
  (forall v, set_ghost_idx m v w
             = (Raise (ValueError "main beam cannot have ghost_idx"), w)) /\
  ghost_idx m w = (Raise (AttributeError "_Beam__ghost_idx"), w).
Proof.
  intros Eg Hg Em Hm Hi. repeat split.
  - intros c. unfold set_ghost_count, ghost. mrun. reflexivity.
  - intros tag kw. unfold create_ghost, ghost. mrun. reflexivity.
  - intros v. unfold set_ghost_idx, ghost. mrun. reflexivity.
  - unfold ghost_idx. mrun. reflexivity.
Qed.

(** ** Deleting coefficients *)

(** C8. On a ghost, [delete_blm] drops the ghost's own cache, if any, and
    then raises AttributeError: the ghost has no [ghosts] to look at. *)
Theorem delete_blm_on_ghost_raises w g bg (flag : bool) :
  beams w !! g = Some bg -> __ghosts bg = None ->
  delete_blm g flag w
  = (Raise (AttributeError "_Beam__ghosts"),
     match __blm bg with
     | Some _ => put g (with_blm None bg) w
     | None => w
     end).
Proof.
  intros Eg Hg. unfold delete_blm, del_blm, ghosts.
  destruct (__blm bg) eqn:Eb; mrun; reflexivity.
Qed.

(** ** Invariants of the store *)

Section Preserves.

Context (J : World -> Prop).

Lemma pres_ret {A} (a : A) : preserves J (ret a).
Proof. by intros w. Qed.

Lemma pres_raise {A} e : preserves J (raise (A:=A) e).
Proof. by intros w. Qed.

Lemma pres_bind {A B} (m : M A) (k : A -> M B) :
  preserves J m -> (forall a, preserves J (k a)) -> preserves J (bind m k).
Proof.
  intros Hm Hk w Hw. unfold bind. specialize (Hm w Hw).
  destruct (m w) as [[a|e] w1]; simpl in *; [by apply Hk | done].
Qed.

Lemma pres_try {A} (body handler : M A) :
  preserves J body -> preserves J handler ->
  preserves J (try_except_AttributeError body handler).
Proof.
  intros Hb Hh w Hw. unfold try_except_AttributeError.
  specialize (Hb w Hw).
  destruct (body w) as [[a|[]] w1]; simpl in *; try done. by apply Hh.
Qed.

Lemma pres_for_each {A} (xs : list A) (body : A -> M unit) :
  (forall x, preserves J (body x)) -> preserves J (for_each xs body).
Proof.
  intros Hb. induction xs as [|x xs IH]; simpl.
  - apply pres_ret.
  - apply pres_bind; [apply Hb | intros _; apply IH].
Qed.

Lemma pres_deref l : preserves J (deref l).
Proof. intros w Hw. unfold deref. by destruct (beams w !! l). Qed.

Lemma pres_lookup_name n : preserves J (lookup_name n).
Proof. intros w Hw. unfold lookup_name. by destruct (name_bound n). Qed.

Lemma pres_lift {A} (r : pyexc + A) : preserves J (lift r).
Proof. destruct r; [apply pres_raise | apply pres_ret]. Qed.

Lemma pres_index {A} (rows : list A) i : preserves J (index rows i).
Proof.
  unfold index. destruct (rows !! i); [apply pres_ret | apply pres_raise].
Qed.

End Preserves.

(** ** Loading coefficients *)

(** The two ways through [load_blm], in the terms of the model. *)
Lemma load_blm_run w self b fname kw arr :
  beams w !! self = Some b ->
  files w !! npy_path fname = Some arr ->
  let rows := atleast_2d arr in
  (length rows = 3 -> cross_pol b = true ->
   let kw' := pop_c2_fwhm kw in
   let rows' := scale_blm rows kw' in
   let rows' := if Float.neq (amplitude b) 1
                then map (map (scale_elt (amplitude b))) rows' else rows' in
   forall r0 r1 r2 : list elt,
     rows' !! 0 = Some r0 -> rows' !! 1 = Some r1 -> rows' !! 2 = Some r2 ->
     exists r w',
       load_blm self (Some fname) kw w = (Ret tt, w') /\
       blms w !! r = None /\
       blms w' !! r = Some (r0, r1, r2) /\
       beams w' !! self = Some (with_blm (Some r) b) /\
       calls w'
       = (calls w ++ [CallLoad (npy_path fname); CallScale kw'])%list) /\
  (length rows <> 3 \/ cross_pol b = false ->
   forall row : list elt, rows !! 0 = Some row ->
     exists r w',
       load_blm self (Some fname) kw w = (Ret tt, w') /\
       blms w !! r = None /\
       blms w' !! r
       = Some (get_copol_blm (scaled (amplitude b) row) kw) /\
       beams w' !! self = Some (with_blm (Some r) b) /\
       calls w'
       = (calls w ++ [CallLoad (npy_path fname); CallCopol kw])%list).
Proof.
  intros Eb Ef rows. split.
  - intros Hlen Hcp kw' rows0 rows' r0 r1 r2 E0 E1 E2.
    exists (fresh (dom (blms w))). eexists. split.
    + unfold load_blm, np_load, log, index, alloc_blm, set_blm. mrun.
      fold rows. rewrite Hlen. mrun. fold kw'. fold rows0. fold rows'.
      rewrite E0, E1, E2. mrun. reflexivity.
    + split; [apply fresh_blm_unused|]. wsimp.
      rewrite lookup_insert_eq, <- app_assoc. done.
  - intros Hor row E0.
    exists (fresh (dom (blms w))). eexists. split.
    + unfold load_blm, np_load, log, index, alloc_blm, set_blm, copol_blm.
      mrun. fold rows.
      destruct (length rows =? 3)%nat eqn:El.
      * destruct Hor as [Hne|Hcp];
          [apply Nat.eqb_eq in El; done|].
        mrun. rewrite ?E0. unfold log, alloc_blm. mrun. reflexivity.
      * mrun. rewrite ?E0. unfold log, alloc_blm. mrun. reflexivity.
    + split; [apply fresh_blm_unused|]. wsimp.
      rewrite lookup_insert_eq, <- app_assoc. done.
Qed.

(** C9. [load_blm] on a file that is there; the file is [pname + ext] for
    the two parts [os.path.splitext] gives, with [.npy] for an empty [ext],
    and its rows are those of the array, a single row for an array of rank
    1. With three rows and [cross_pol] set, the rows go through
    [tools.scale_blm] with the caller's keywords without [c2_fwhm], every
    entry is multiplied by the amplitude if that is not 1, and the three
    rows are stored as the triplet; [tools.get_copol_blm] is not called.
    Otherwise the first row alone is kept, multiplied by the amplitude if
    that is not 1, and handed to [tools.get_copol_blm] with the caller's
    keywords as they are; its result is stored. *)
Theorem load_blm_paths w self b fname pname ext kw arr :
  beams w !! self = Some b ->
  splitext fname = (pname, ext) ->
  let path := pname ++ (if String.eqb ext EmptyString then ".npy" else ext) in
  files w !! path = Some arr ->
  let rows := match arr with Arr1 v => [v] | Arr2 rows => rows end in
  (length rows = 3 -> cross_pol b = true ->
   let kw' := mkBlmKwargs (kw_deconv_q kw) (kw_normalize kw) None in
   let rows' := scale_blm rows kw' in
   let rows' := if negb (amplitude b =? 1)%float
                then map (map (scale_elt (amplitude b))) rows' else rows' in
   forall r0 r1 r2 : list elt,
     rows' !! 0 = Some r0 -> rows' !! 1 = Some r1 -> rows' !! 2 = Some r2 ->
     exists r w',
       load_blm self (Some fname) kw w = (Ret tt, w') /\
       blms w !! r = None /\
       blms w' !! r = Some (r0, r1, r2) /\
       beams w' !! self = Some (with_blm (Some r) b) /\
       calls w' = (calls w ++ [CallLoad path; CallScale kw'])%list) /\
  (length rows <> 3 \/ cross_pol b = false ->
   forall row : list elt, rows !! 0 = Some row ->
     let row' := if negb (amplitude b =? 1)%float
                 then map (scale_elt (amplitude b)) row else row in
     exists r w',
       load_blm self (Some fname) kw w = (Ret tt, w') /\
       blms w !! r = None /\
       blms w' !! r = Some (get_copol_blm row' kw) /\
       beams w' !! self = Some (with_blm (Some r) b) /\
       calls w' = (calls w ++ [CallLoad path; CallCopol kw])%list).
Proof.
  intros Eb Hsplit path Ef rows.
  assert (npy_path fname = path) as Hpath.
  { unfold npy_path. by rewrite Hsplit. }
  rewrite <- Hpath in Ef.
  destruct (load_blm_run w self b fname kw arr Eb Ef) as [Hcross Hco].
  rewrite Hpath in Hcross, Hco.
  assert (atleast_2d arr = rows) as Hrows by (by destruct arr).
  rewrite Hrows in Hcross, Hco. split.
  - intros Hlen Hcp kw' rows0 rows' r0 r1 r2 E0 E1 E2.
    exact (Hcross Hlen Hcp r0 r1 r2 E0 E1 E2).
  - intros Hor row E0 row'. exact (Hco Hor row E0).
Qed.

(** ** The cache of coefficients

    Properties of the store that every operation keeps, given that the
    primitive steps keep them. [storable l] says that coefficients may be
    stored on [l] without breaking the property. *)

Section Frame.

Context (J : World -> Prop) (storable : loc -> Prop).

Hypothesis J_assign :
  forall l f, (forall b, __blm (f b) = __blm b) -> preserves J (assign l f).
Hypothesis J_store :
  forall l v, storable l -> preserves J (assign l (with_blm (Some v))).
Hypothesis J_alloc_beam : forall b0, preserves J (alloc_beam b0).
Hypothesis J_alloc_blm : forall t0, preserves J (alloc_blm t0).
Hypothesis J_log : forall c, preserves J (log c).
Hypothesis J_read : forall l, ~ storable l -> preserves J (blm l).
Hypothesis storable_dec : forall l, {storable l} + {~ storable l}.

Lemma frame_np_load path : preserves J (np_load path).
Proof.
  unfold np_load. apply pres_bind; [apply J_log|]. intros _ w Hw.
  by destruct (files w !! path).
Qed.

Ltac pstep :=
  first
    [ apply pres_ret | apply pres_raise | apply pres_deref
    | apply pres_lookup_name | apply pres_lift | apply pres_index
    | apply J_log | apply frame_np_load | apply J_alloc_beam
    | apply J_alloc_blm
    | apply J_assign; intros ?; reflexivity
    | apply J_store; assumption
    | apply pres_try
    | apply pres_for_each; intros ?
    | apply pres_bind; [|intros ?]
    | match goal with
      | |- preserves _ (match ?x with _ => _ end) => destruct x
      end ].

Lemma frame_getpriv {A} l (proj : Beam -> option A) attr :
  preserves J (getpriv l proj attr).
Proof. unfold getpriv. repeat pstep. Qed.

Lemma frame_getattr {A} l (proj : Beam -> A) :
  preserves J (getattr l proj).
Proof. unfold getattr. repeat pstep. Qed.

Lemma frame_raise_named {A} cls e : preserves J (raise_named (A:=A) cls e).
Proof. unfold raise_named. repeat pstep. Qed.

Ltac pres :=
  repeat first
    [ apply frame_getpriv | apply frame_getattr | apply frame_raise_named
    | pstep ].

Lemma frame_set_ghost_count l c : preserves J (set_ghost_count l c).
Proof. unfold set_ghost_count, ghost. pres. Qed.

Lemma frame_set_ghost_idx l v : preserves J (set_ghost_idx l v).
Proof. unfold set_ghost_idx, ghost. pres. Qed.

Lemma frame_set_dead l v : preserves J (set_dead l v).
Proof. unfold set_dead, ghosts. pres. Qed.

Lemma frame_set_lmax l v : preserves J (set_lmax l v).
Proof. unfold set_lmax, fwhm. pres. Qed.

Lemma frame_set_fwhm l v : preserves J (set_fwhm l v).
Proof. unfold set_fwhm, lmax. pres. Qed.

Lemma frame_set_mmax l v : preserves J (set_mmax l v).
Proof. unfold set_mmax, lmax. pres. Qed.

Ltac sstep :=
  first
    [ apply frame_set_dead | apply frame_set_lmax | apply frame_set_mmax
    | apply frame_set_fwhm | apply frame_set_ghost_count
    | apply frame_set_ghost_idx
    | apply frame_getpriv | apply frame_getattr | apply frame_raise_named
    | pstep ].

Lemma frame_new_Beam a : preserves J (new_Beam a).
Proof. unfold new_Beam, ghost. repeat sstep. Qed.

Lemma frame_create_ghost l tag kw : preserves J (create_ghost l tag kw).
Proof.
  unfold create_ghost, ghost, ghosts, ghost_count, fwhm, lmax, mmax, dead.
  repeat first [ apply frame_new_Beam | sstep ].
Qed.

Lemma frame_copol_blm blm0 opts : preserves J (copol_blm blm0 opts).
Proof. unfold copol_blm. pres. Qed.

Lemma frame_gen_gaussian_blm l :
  storable l -> preserves J (gen_gaussian_blm l).
Proof.
  intros Hl. unfold gen_gaussian_blm, fwhm, lmax, set_blm.
  repeat first
    [ apply frame_copol_blm | apply frame_getpriv | apply frame_getattr
    | pstep ].
Qed.

Lemma frame_load_blm l f kw : storable l -> preserves J (load_blm l f kw).
Proof.
  intros Hl. unfold load_blm, set_blm.
  repeat first
    [ apply frame_copol_blm | apply frame_getpriv | apply frame_getattr
    | pstep ].
Qed.

Lemma frame_blm l : preserves J (blm l).
Proof.
  destruct (storable_dec l) as [Hl|Hl]; [|by apply J_read].
  unfold blm.
  repeat first
    [ apply frame_gen_gaussian_blm; assumption
    | apply frame_load_blm; assumption
    | apply frame_getpriv | apply frame_getattr
    | apply frame_raise_named | pstep ].
Qed.

Lemma frame_reuse_blm l partner :
  storable l -> preserves J (reuse_blm l partner).
Proof.
  intros Hl. unfold reuse_blm.
  destruct partner; try apply frame_raise_named.
  unfold ghost, ghost_idx, lmax, mmax, set_blm.
  repeat first [ apply frame_blm | sstep ].
Qed.

Lemma frame_perform o :
  (forall l, blm_target o = Some l -> storable l) ->
  preserves J (perform o).
Proof.
  destruct o; simpl; intros Ho.
  - apply pres_bind; [apply frame_new_Beam | intros; apply pres_ret].
  - apply frame_set_ghost_count.
  - apply frame_set_ghost_idx.
  - apply frame_set_dead.
  - apply frame_set_lmax.
  - apply frame_set_fwhm.
  - apply frame_set_mmax.
  - by apply J_assign.
  - by apply J_assign.
  - apply pres_bind; [apply frame_blm | intros; apply pres_ret].
  - apply J_store. by apply Ho.
  - apply frame_gen_gaussian_blm. by apply Ho.
  - apply frame_load_blm. by apply Ho.
  - apply frame_create_ghost.
  - apply frame_reuse_blm. by apply Ho.
  - unfold get_offsets. pres.
Qed.

Lemma frame_perform_all ops w :
  Forall (fun o => forall l, blm_target o = Some l -> storable l) ops ->
  J w -> J (perform_all ops w).
Proof.
  revert w. induction ops as [|o ops IH]; simpl; intros w Hops Hw; [done|].
  apply Forall_cons in Hops as [Ho Hops].
  apply IH; [done|]. by apply frame_perform.
Qed.

End Frame.

(** The tuple a beam holds, and its content, are kept by every operation
    that does not store coefficients on that beam. *)
Section Cache.

Context (self : loc) (r : sref) (t : triplet).

Lemma cached_assign l f :
  (forall b, __blm (f b) = __blm b) ->
  preserves (cached self r t) (assign l f).
Proof.
  intros Hf w [(b & Eb & Hb) Ht]. unfold assign, bind, deref.
  destruct (beams w !! l) as [bl|] eqn:El; simpl; [|by split; eauto].
  split; [|done]. destruct (decide (l = self)) as [->|Hne].
  - exists (f bl). rewrite beams_put_eq. split; [done|].
    rewrite Hf. congruence.
  - exists b. by rewrite beams_put_ne.
Qed.

Lemma cached_assign_other l f :
  l <> self -> preserves (cached self r t) (assign l f).
Proof.
  intros Hne w [(b & Eb & Hb) Ht]. unfold assign, bind, deref.
  destruct (beams w !! l) as [bl|] eqn:El; simpl; [|by split; eauto].
  split; [|done]. exists b. by rewrite beams_put_ne.
Qed.

Lemma cached_alloc_beam b0 : preserves (cached self r t) (alloc_beam b0).
Proof.
  intros w [(b & Eb & Hb) Ht]. unfold alloc_beam. cbn [snd].
  split; [|done]. exists b. rewrite beams_put_ne; [done|].
  by eapply fresh_beam_ne.
Qed.

Lemma cached_alloc_blm t0 : preserves (cached self r t) (alloc_blm t0).
Proof.
  intros w [Hb Ht]. unfold alloc_blm. cbn [snd]. split; [done|].
  unfold set_blms. cbn [blms]. rewrite lookup_insert_ne; [done|].
  intros E. pose proof (fresh_blm_unused w) as Hf. congruence.
Qed.

(** A cached [blm] is returned as it is, and nothing else happens. *)
Lemma blm_cached_run w b :
  beams w !! self = Some b -> __blm b = Some r -> blm self w = (Ret r, w).
Proof. intros E Hb. unfold blm. by mrun. Qed.

Lemma cached_read l : ~ l <> self -> preserves (cached self r t) (blm l).
Proof.
  intros Hl. destruct (decide (l = self)) as [->|Hne]; [|done].
  intros w Hw. destruct Hw as [(b & Eb & Hb) Ht] eqn:E.
  by rewrite (blm_cached_run w b Eb Hb).
Qed.

Lemma cached_perform_all ops w :
  forallb (fun o => negb (assigns_blm_of self o)) ops = true ->
  cached self r t w -> cached self r t (perform_all ops w).
Proof.
  intros Hops.
  apply (frame_perform_all (cached self r t) (fun l => l <> self)).
  - apply cached_assign.
  - intros l v. apply cached_assign_other.
  - apply cached_alloc_beam.
  - apply cached_alloc_blm.
  - by intros c w0.
  - apply cached_read.
  - intros l. destruct (decide (l = self)); [right|left]; naive_solver.
  - apply Forall_forall. intros o Ho l Hl ->.
    rewrite forallb_forall in Hops. apply list_elem_of_In in Ho.
    specialize (Hops o Ho). apply negb_true_iff in Hops.
    unfold assigns_blm_of in Hops. by apply bool_decide_eq_false in Hops.
Qed.

End Cache.

(** No operation takes the coefficients of a beam away. *)
Lemma holds_blm_perform_all self ops w :
  holds_blm self w -> holds_blm self (perform_all ops w).
Proof.
  apply (frame_perform_all (holds_blm self) (fun _ => True)).
  - intros l f Hf w0 (b & r & Eb & Hb). unfold assign, bind, deref.
    destruct (beams w0 !! l) as [bl|] eqn:El; simpl; [|by exists b, r].
    destruct (decide (l = self)) as [->|Hne].
    + exists (f bl), r. rewrite beams_put_eq. split; [done|].
      rewrite Hf. congruence.
    + exists b, r. by rewrite beams_put_ne.
  - intros l v _ w0 (b & r & Eb & Hb). unfold assign, bind, deref.
    destruct (beams w0 !! l) as [bl|] eqn:El; simpl; [|by exists b, r].
    destruct (decide (l = self)) as [->|Hne].
    + exists (with_blm (Some v) bl), v. by rewrite beams_put_eq.
    + exists b, r. by rewrite beams_put_ne.
  - intros b0 w0 (b & r & Eb & Hb). unfold alloc_beam. cbn [snd].
    exists b, r. rewrite beams_put_ne; [done|]. by eapply fresh_beam_ne.
  - by intros t0 w0.
  - by intros c w0.
  - by intros l [].
  - intros l. by left.
  - apply Forall_forall. done.
Qed.

(** C2. Once a beam holds coefficients, reading [blm] returns that very
    tuple and leaves the store, the log of collaborator calls included, as
    it was. This stays so after any sequence of operations on any beams
    (assignments to [fwhm], [lmax] and [btype] among them) that does not
    store coefficients on that beam anew; and whatever the operations,
    only deleting leaves the beam without coefficients. *)
Theorem blm_cache_persists w self b r (t : triplet) (ops : list operation) :
  beams w !! self = Some b -> __blm b = Some r -> blms w !! r = Some t ->
  blm self w = (Ret r, w) /\
  (forallb (fun o => negb (assigns_blm_of self o)) ops = true ->
   let w' := perform_all ops w in
   blm self w' = (Ret r, w') /\ blms w' !! r = Some t) /\
  holds_blm self (perform_all ops w).
Proof.
  intros Eb Hb Ht. split; [by eapply blm_cached_run|]. split.
  - intros Hops.
    assert (cached self r t (perform_all ops w)) as [(b' & Eb' & Hb') Ht'].
    { apply cached_perform_all; [done|]. split; eauto. }
    simpl. split; [by eapply blm_cached_run | done].
  - apply holds_blm_perform_all. by exists b, r.
Qed.

(** ** Dead beams and their ghosts *)

(** A loop whose body rewrites the object it is given, and nothing else. *)
Lemma for_each_put (body : loc -> M unit) (f : Beam -> Beam) gs w :
  (forall w g bg, beams w !! g = Some bg ->
                  body g w = (Ret tt, put g (f bg) w)) ->
  (forall b, f (f b) = f b) ->
  (forall g, g ∈ gs -> is_Some (beams w !! g)) ->
  exists w',
    for_each gs body w = (Ret tt, w') /\
    blms w' = blms w /\ calls w' = calls w /\ files w' = files w /\
    forall l,
      beams w' !! l
      = if decide (l ∈ gs) then f <$> beams w !! l else beams w !! l.
Proof.
  intros Hbody Hidem. revert w. induction gs as [|g gs IH]; intros w Hall.
  - exists w. do 4 (split; [done|]). intros l.
    destruct (decide (l ∈ [])) as [Hin|]; [|done].
    by apply elem_of_nil in Hin.
  - destruct (Hall g) as [bg Eg]; [by left|].
    destruct (IH (put g (f bg) w)) as (w' & Hrun & Hb & Hc & Hf & Hl).
    { intros g' Hin. destruct (decide (g = g')) as [<-|Hne].
      - rewrite beams_put_eq. eauto.
      - rewrite beams_put_ne by done. apply Hall. by right. }
    exists w'. split.
    { cbn [for_each]. by rewrite (bind_ret_run _ _ _ _ _ (Hbody _ _ _ Eg)). }
    rewrite Hb, Hc, Hf, blms_put, calls_put, files_put.
    do 3 (split; [done|]). intros l. rewrite Hl.
    destruct (decide (l = g)) as [->|Hne].
    + rewrite beams_put_eq, Eg.
      destruct (decide (g ∈ g :: gs)) as [_|Hn]; [|by destruct Hn; left].
      destruct (decide (g ∈ gs)); [|done]. simpl. by rewrite Hidem.
    + rewrite beams_put_ne by done.
      destruct (decide (l ∈ gs)) as [Hin|Hin];
        destruct (decide (l ∈ g :: gs)) as [Hin'|Hin']; try done.
      * destruct Hin'. by right.
      * apply elem_of_cons in Hin' as [?|?]; done.
Qed.

Lemma for_each_dead gs (v : bool) w :
  (forall g, g ∈ gs -> is_Some (beams w !! g)) ->
  exists w',
    for_each gs (fun g => assign g (with_dead (Some v))) w = (Ret tt, w') /\
    blms w' = blms w /\ calls w' = calls w /\ files w' = files w /\
    forall l,
      beams w' !! l
      = if decide (l ∈ gs) then with_dead (Some v) <$> beams w !! l
        else beams w !! l.
Proof.
  apply for_each_put; [|done]. intros w0 g bg Eg. by apply assign_run.
Qed.

Lemma set_dead_spec w p b gs (v : bool) :
  beams w !! p = Some b -> __ghosts b = Some gs ->
  (forall g, g ∈ gs -> is_Some (beams w !! g)) ->
  exists w',
    set_dead p v w = (Ret tt, w') /\
    blms w' = blms w /\ calls w' = calls w /\ files w' = files w /\
    (exists bp, beams w' !! p = Some bp /\ __dead bp = Some v /\
                __ghosts bp = Some gs) /\
    (forall g, g ∈ gs ->
       exists bg, beams w' !! g = Some bg /\ __dead bg = Some v) /\
    (forall l, l <> p -> l ∉ gs -> beams w' !! l = beams w !! l).
Proof.
  intros Eb Hgs Hall.
  destruct (for_each_dead gs v (put p (with_dead (Some v) b) w))
    as (w' & Hrun & Hb & Hc & Hf & Hl).
  { intros g Hin. destruct (decide (p = g)) as [<-|Hne].
    - rewrite beams_put_eq. eauto.
    - rewrite beams_put_ne by done. by apply Hall. }
  exists w'. split.
  { unfold set_dead.
    rewrite (bind_ret_run _ _ _ _ _ (assign_run _ _ _ _ Eb)).
    unfold try_except_AttributeError, ghosts.
    erewrite (bind_ret_run (getpriv _ _ _));
      [|by eapply getpriv_run; [apply beams_put_eq|]].
    by rewrite Hrun. }
  rewrite Hb, Hc, Hf, blms_put, calls_put, files_put.
  do 3 (split; [done|]). split; [|split].
  - rewrite Hl, beams_put_eq.
    destruct (decide (p ∈ gs)); simpl; eauto.
  - intros g Hin. rewrite Hl. destruct (decide (g ∈ gs)); [|done].
    destruct (decide (p = g)) as [<-|Hne].
    + rewrite beams_put_eq. simpl. eauto.
    + rewrite beams_put_ne by done. destruct (Hall g Hin) as [bg ->].
      simpl. eauto.
  - intros l Hne Hin. rewrite Hl. destruct (decide (l ∈ gs)); [done|].
    by rewrite beams_put_ne.
Qed.

(** C4. Assigning [dead] on a beam with ghosts sets the flag of the beam
    and of every ghost in its list. A ghost that [create_ghost] makes takes
    the flag its parent has at that moment, or the [dead] keyword when one
    is passed; the call touches no other beam. *)
Theorem dead_reaches_the_ghosts_of_the_moment
  w p b gs (v : bool) wc pc bc gsc (d : bool) tag kw wc' :
  beams w !! p = Some b -> __ghosts b = Some gs ->
  (forall g, g ∈ gs -> is_Some (beams w !! g)) ->
  beams wc !! pc = Some bc -> __dead bc = Some d ->
  __ghosts bc = Some gsc ->
  create_ghost pc tag kw wc = (Ret tt, wc') ->
  (exists w',
     set_dead p v w = (Ret tt, w') /\
     (exists bp, beams w' !! p = Some bp /\ __dead bp = Some v) /\
     (forall g, g ∈ gs ->
        exists bg, beams w' !! g = Some bg /\ __dead bg = Some v)) /\
  (exists g bg bp,
     beams wc !! g = None /\ beams wc' !! g = Some bg /\
     __dead bg = Some (default d (k_dead kw)) /\
     beams wc' !! pc = Some bp /\ __ghosts bp = Some (gsc ++ [g])%list /\
     __dead bp = Some d /\
     forall l, l <> pc -> l <> g -> beams wc' !! l = beams wc !! l).
Proof.
  intros Eb Hgs Hall Ec Hd Hgsc Hrun. split.
  - destruct (set_dead_spec w p b gs v Eb Hgs Hall)
      as (w' & Hset & _ & _ & _ & (bp & Ep & Hp & _) & Hg & _).
    exists w'. split; [done|]. split; [by exists bp|done].
  - destruct (create_ghost_spec _ _ _ _ _ _ Ec Hrun)
      as (g & bg & bp & c & gsc' & d' & Hnew & _ & _ & Hgsc' & Hd' & Eg & Ep
          & Hframe & _ & _ & _ & _ & _ & Hdg & _ & _ & ->).
    assert (d' = d) as -> by congruence.
    assert (gsc' = gsc) as -> by congruence.
    eexists g, bg, _. repeat split; try done.
Qed.

(** ** Deleting coefficients on a main beam *)

Lemma put_same w l b : beams w !! l = Some b -> put l b w = w.
Proof.
  intros E. Transparent put. unfold put, set_beams. Opaque put.
  rewrite insert_id by done. by destruct w.
Qed.

Lemma with_blm_same b : with_blm (__blm b) b = b.
Proof. by destruct b. Qed.

Lemma try_del_blm_run w g bg :
  beams w !! g = Some bg ->
  try_except_AttributeError (del_blm g) (ret tt) w
  = (Ret tt, put g (with_blm None bg) w).
Proof.
  intros Eg. unfold del_blm. destruct (__blm bg) as [r|] eqn:Hb.
  - by mrun.
  - mrun. by rewrite <- Hb, with_blm_same, put_same.
Qed.

(** On a main beam [delete_blm] returns; the beam holds no coefficients
    afterwards, nor do its ghosts when [del_ghosts_blm] is set. Beams that
    held none make no difference. *)
Lemma delete_blm_main w p b gs (flag : bool) :
  beams w !! p = Some b -> __ghosts b = Some gs ->
  (forall g, g ∈ gs -> is_Some (beams w !! g)) ->
  exists w',
    delete_blm p flag w = (Ret tt, w') /\
    (exists bp, beams w' !! p = Some bp /\ __blm bp = None) /\
    (flag = true -> forall g, g ∈ gs ->
       exists bg, beams w' !! g = Some bg /\ __blm bg = None).
Proof.
  intros Eb Hgs Hall. unfold delete_blm.
  rewrite (bind_ret_run _ _ _ _ _ (try_del_blm_run _ _ _ Eb)).
  unfold ghosts.
  erewrite (bind_ret_run (getpriv _ _ _));
    [|by eapply getpriv_run; [apply beams_put_eq|]].
  destruct (negb (bool_decide (gs = [])) && flag) eqn:Hc.
  - erewrite (bind_ret_run (getpriv _ _ _));
      [|by eapply getpriv_run; [apply beams_put_eq|]].
    destruct (for_each_put
                (fun g => try_except_AttributeError (del_blm g) (ret tt))
                (with_blm None) gs (put p (with_blm None b) w))
      as (w' & Hrun & _ & _ & _ & Hl); [apply try_del_blm_run|done| |].
    { intros g Hin. destruct (decide (p = g)) as [<-|Hne].
      - rewrite beams_put_eq. eauto.
      - rewrite beams_put_ne by done. by apply Hall. }
    exists w'. split; [done|]. split.
    + rewrite Hl, beams_put_eq. destruct (decide (p ∈ gs)); simpl; eauto.
    + intros _ g Hin. rewrite Hl. destruct (decide (g ∈ gs)); [|done].
      destruct (decide (p = g)) as [<-|Hne].
      * rewrite beams_put_eq. simpl. eauto.
      * rewrite beams_put_ne by done. destruct (Hall g Hin) as [bg ->].
        simpl. eauto.
  - eexists. split; [done|]. rewrite beams_put_eq. split; [eauto|].
    intros ->. rewrite andb_true_r in Hc. apply negb_false_iff in Hc.
    apply bool_decide_eq_true in Hc as ->. intros g Hin.
    by apply elem_of_nil in Hin.
Qed.

(** ** Creating ghosts *)

(** C6. [create_ghost] on a main beam. The call returns when the beam is
    fully constructed with a width that is not zero and no keywords are
    passed. Whenever it returns, a new object is the last of the parent's
    [ghosts], its [ghost_idx] is the [ghost_count] the parent had, which is
    now one more, and its name is the parent's name and the tag joined by
    an underscore, the tag alone for a parent without a name, and the
    parent's name for an empty tag. A second call gives the next index. *)
Theorem create_ghost_registers w p b :
  beams w !! p = Some b -> __ghost b = Some false ->
  (forall tag pf pd pl pm c gs,
     __fwhm b = Some pf -> Float.truthy pf = true -> __dead b = Some pd ->
     __lmax b = Some pl -> __mmax b = Some pm ->
     __ghost_count b = Some c -> __ghosts b = Some gs ->
     exists w', create_ghost p tag no_kwargs w = (Ret tt, w')) /\
  (forall tag kw w1,
     create_ghost p tag kw w = (Ret tt, w1) ->
     exists g bg bp c gs,
       beams w !! g = None /\
       __ghost_count b = Some c /\ __ghosts b = Some gs /\
       beams w1 !! g = Some bg /\
       __ghost bg = Some true /\ __ghost_idx bg = Some c /\
       beams w1 !! p = Some bp /\
       __ghost_count bp = Some (c + 1)%Z /\
       __ghosts bp = Some (gs ++ [g])%list /\
       (forall t n, tag = Some t -> t <> EmptyString ->
                    name b = Some n -> n <> EmptyString ->
                    name bg = Some (n ++ "_" ++ t)) /\
       (forall t, tag = Some t -> t <> EmptyString ->
                  name b = None \/ name b = Some EmptyString ->
                  name bg = Some t) /\
       (tag = None \/ tag = Some EmptyString -> name bg = name b) /\
       forall tag2 kw2 w2,
         create_ghost p tag2 kw2 w1 = (Ret tt, w2) ->
         exists g2 bg2 bp2,
           g2 <> g /\ beams w2 !! g = Some bg /\
           beams w2 !! g2 = Some bg2 /\
           __ghost_idx bg2 = Some (c + 1)%Z /\
           beams w2 !! p = Some bp2 /\
           __ghost_count bp2 = Some (c + 2)%Z /\
           __ghosts bp2 = Some (gs ++ [g; g2])%list).
Proof.
  intros Eb Hg. split.
  - intros tag pf pd pl pm c gs Hf Ht Hd Hl Hm Hc Hgs.
    eexists. eapply create_ghost_run; try done.
    unfold ghost_opts, resolve_fwhm. simpl. by rewrite Ht.
  - intros tag kw w1 Hrun.
    destruct (create_ghost_spec _ _ _ _ _ _ Eb Hrun)
      as (g & bg & bp & c & gs & d & Hnew & _ & Hc & Hgs & _ & Eg & Ep
          & _ & _ & _ & Hname & Hgg & Hidx & _ & _ & _ & Hbp).
    exists g, bg, bp, c, gs. do 7 (split; [done|]).
    split; [by rewrite Hbp|]. split; [by rewrite Hbp|].
    split; [|split; [|split]].
    + intros t n -> Ht Hn Hn'. rewrite Hname, Hn. by apply ghost_name_tagged.
    + intros t -> Ht Hn. rewrite Hname. by apply ghost_name_unnamed.
    + intros Ht. rewrite Hname. by apply ghost_name_untagged.
    + intros tag2 kw2 w2 Hrun2.
      destruct (create_ghost_spec _ _ _ _ _ _ Ep Hrun2)
        as (g2 & bg2 & bp2 & c2 & gs2 & d2 & Hnew2 & _ & Hc2 & Hgs2 & _
            & Eg2 & Ep2 & Hframe & _ & _ & _ & _ & Hidx2 & _ & _ & _ & Hbp2).
      rewrite Hbp in Hc2, Hgs2. cbn in Hc2, Hgs2.
      injection Hc2 as <-. injection Hgs2 as <-.
      assert (g2 <> g) as Hne by (intros ->; congruence).
      assert (g <> p) as Hne' by (intros ->; congruence).
      exists g2, bg2, bp2. split; [done|].
      split; [by rewrite Hframe|]. do 3 (split; [done|]).
      rewrite Hbp2. cbn. split.
      * f_equal. lia.
      * by rewrite <- app_assoc.
Qed.

(** ** Materialising coefficients *)

Lemma beams_put w l b : beams (put l b w) = <[l := b]> (beams w).
Proof. Transparent put. reflexivity. Opaque put. Qed.

Lemma with_btype_same b : with_btype (btype b) b = b.
Proof. by destruct b. Qed.

Lemma with_ghost_idx_same b : with_ghost_idx (__ghost_idx b) b = b.
Proof. by destruct b. Qed.

Lemma gen_gaussian_blm_inv w p b w' :
  beams w !! p = Some b -> btype b = "Gaussian" ->
  gen_gaussian_blm p w = (Ret tt, w') ->
  exists r, beams w' !! p = Some (with_blm (Some r) b) /\
            materialised w p b r w'.
Proof.
  intros Eb Hbt. unfold gen_gaussian_blm, copol_blm, log, alloc_blm.
  destruct (__fwhm b) as [f|] eqn:Hf; [|by mrun].
  destruct (__lmax b) as [l|] eqn:Hl; [|by mrun].
  mrun. intros [= <-]. exists (fresh (dom (blms w))).
  rewrite <- Hbt, with_btype_same.
  split; [by rewrite beams_put_eq|]. unfold materialised.
  rewrite beams_put, blms_put, files_put, calls_put.
  cbn [beams blms files calls set_blms set_calls].
  split; [done|]. split; [apply fresh_blm_unused|].
  split; [by rewrite lookup_insert_eq|].
  split; [by intros r' ?; rewrite lookup_insert_ne|]. split; [done|].
  eexists _, _. by rewrite <- app_assoc.
Qed.

Lemma load_blm_inv w p b f kw w' :
  beams w !! p = Some b ->
  load_blm p f kw w = (Ret tt, w') ->
  exists r, beams w' !! p = Some (with_blm (Some r) b) /\
            materialised w p b r w'.
Proof.
  intros Eb. unfold load_blm, np_load, copol_blm, log, alloc_blm, index.
  destruct f as [f|]; [|by mrun].
  destruct (files w !! npy_path f) as [arr|] eqn:Ef; [|by mrun].
  mrun.
  assert (forall t cs,
    exists r,
      beams (put p (with_blm (Some (fresh (dom (blms w)))) b)
               (set_blms (<[fresh (dom (blms w)) := t]> (blms w))
                  (set_calls ((calls w ++ [CallLoad (npy_path f)]) ++ cs) w)))
        !! p = Some (with_blm (Some r) b) /\
      materialised w p b r
        (put p (with_blm (Some (fresh (dom (blms w)))) b)
           (set_blms (<[fresh (dom (blms w)) := t]> (blms w))
              (set_calls ((calls w ++ [CallLoad (npy_path f)]) ++ cs) w))))
    as Hfin.
  { intros t cs. exists (fresh (dom (blms w))).
    split; [by rewrite beams_put_eq|]. unfold materialised.
    rewrite beams_put, blms_put, files_put, calls_put.
    cbn [beams blms files calls set_blms set_calls].
    split; [done|]. split; [apply fresh_blm_unused|].
    split; [by rewrite lookup_insert_eq|].
    split; [by intros r' ?; rewrite lookup_insert_ne|]. split; [done|].
    eexists _, _. by rewrite <- app_assoc. }
  destruct (length (atleast_2d arr) =? 3)%nat eqn:El;
    [destruct (cross_pol b) eqn:Ecp|]; mrun.
  - match goal with
    | |- context [?rows !! 0] =>
        destruct (rows !! 0) eqn:E0; [|by mrun];
        destruct (rows !! 1) eqn:E1; [|by mrun];
        destruct (rows !! 2) eqn:E2; [|by mrun]
    end.
    mrun. intros [= <-]. apply Hfin.
  - destruct (atleast_2d arr !! 0) eqn:E0; [|by mrun].
    mrun. intros [= <-]. apply Hfin.
  - destruct (atleast_2d arr !! 0) eqn:E0; [|by mrun].
    mrun. intros [= <-]. apply Hfin.
Qed.

(** What reading [blm] does: a cached tuple is handed out and nothing
    changes; otherwise a tuple is made for the beam. *)
Lemma blm_inv w p b r w' :
  beams w !! p = Some b ->
  blm p w = (Ret r, w') ->
  beams w' !! p = Some (with_blm (Some r) b) /\
  (forall l, l <> p -> beams w' !! l = beams w !! l) /\
  ((__blm b = Some r /\ w' = w) \/
   (__blm b = None /\ materialised w p b r w')).
Proof.
  intros Eb. unfold blm. destruct (__blm b) as [r0|] eqn:Hb.
  - mrun. intros [= <- <-]. rewrite Eb, <- Hb, with_blm_same. eauto.
  - mrun.
    assert (forall w1 r1,
      beams w1 !! p = Some (with_blm (Some r1) b) ->
      materialised w p b r1 w1 ->
      getpriv p __blm "_Beam__blm" w1 = (Ret r, w') ->
      beams w' !! p = Some (with_blm (Some r) b) /\
      (forall l, l <> p -> beams w' !! l = beams w !! l) /\
      (@None sref = Some r /\ w' = w \/
       @None sref = None /\ materialised w p b r w'))
      as Hfin.
    { intros w1 r1 E1 Hm. erewrite getpriv_run by done.
      intros [= <- <-]. split; [done|]. split; [|by right].
      intros l Hne. destruct Hm as [-> _]. by rewrite lookup_insert_ne. }
    destruct (String.eqb (btype b) "Gaussian") eqn:Eg.
    { apply String.eqb_eq in Eg.
      destruct (gen_gaussian_blm p w) as [[[]|e] w1] eqn:Egen; [|done].
      destruct (gen_gaussian_blm_inv _ _ _ _ Eb Eg Egen) as (r1 & E1 & Hm).
      exact (Hfin w1 r1 E1 Hm). }
    destruct (String.eqb (btype b) "PO") eqn:Epo.
    { mrun.
      match goal with
      | |- context [load_blm p ?f ?kw w] =>
          destruct (load_blm p f kw w) as [[[]|e] w1] eqn:Eload; [|done];
          destruct (load_blm_inv _ _ _ _ _ _ Eb Eload) as (r1 & E1 & Hm)
      end.
      exact (Hfin w1 r1 E1 Hm). }
    destruct (String.eqb (btype b) "EG") eqn:Eeg; [|by mrun].
    mrun.
    match goal with
    | |- context [load_blm p ?f ?kw w] =>
        destruct (load_blm p f kw w) as [[[]|e] w1] eqn:Eload; [|done];
        destruct (load_blm_inv _ _ _ _ _ _ Eb Eload) as (r1 & E1 & Hm)
    end.
    exact (Hfin w1 r1 E1 Hm).
Qed.

(** ** Sharing coefficients *)

Ltac blm_step Eb :=
  match goal with
  | |- context [blm ?p ?w1] =>
      let r := fresh "r" in
      let w2 := fresh "w2" in
      let Eblm := fresh "Eblm" in
      destruct (blm p w1) as [[r|?] w2] eqn:Eblm; [|done];
      let E2 := fresh "E2" in
      let Hfr := fresh "Hfr" in
      let Hm := fresh "Hm" in
      destruct (blm_inv _ _ _ _ _ Eb Eblm) as (E2 & Hfr & Hm)
  end.

Lemma materialised_grows w p b r w' :
  (__blm b = Some r /\ w' = w) \/ (__blm b = None /\ materialised w p b r w') ->
  (__blm b = Some r /\ blms w' = blms w /\ calls w' = calls w) \/
  (__blm b = None /\ blms w !! r = None /\ is_Some (blms w' !! r) /\
   exists c cs, calls w' = (calls w ++ c :: cs)%list).
Proof.
  intros [[? ->]|[? (_ & ? & ? & _ & _ & ?)]]; [by left|by right].
Qed.

Lemma reuse_blm_split w self p :
  reuse_blm self (PyBeam p) w
  = bind (adopt_ghost_idx self p) (fun _ => copy_pointers self p) w.
Proof.
  unfold reuse_blm, adopt_ghost_idx, copy_pointers, bind.
  destruct (ghost p w) as [[pg|e] w0]; [|done].
  destruct ((if pg then ghost self else ret false) w0) as [[both|e] w1];
    [|done].
  by destruct both.
Qed.

Lemma adopt_ghost_idx_inv w self p bs bp w1 :
  beams w !! self = Some bs -> beams w !! p = Some bp ->
  adopt_ghost_idx self p w = (Ret tt, w1) ->
  exists pg bs1,
    __ghost bp = Some pg /\
    beams w1 !! self = Some bs1 /\ beams w1 !! p = Some bp /\
    blms w1 = blms w /\ calls w1 = calls w /\
    (pg = true -> __ghost bs = Some true ->
     is_Some (__ghost_idx bp) /\ __ghost_idx bs1 = __ghost_idx bp).
Proof.
  intros Es Ep. unfold adopt_ghost_idx.
  destruct (__ghost bp) as [[|]|] eqn:Hpg; [| |by mrun].
  - destruct (__ghost bs) as [[|]|] eqn:Hsg; [| |by mrun].
    + destruct (__ghost_idx bp) as [i|] eqn:Hi; [|by mrun].
      mrun. intros [= <-]. exists true, (with_ghost_idx (Some i) bs).
      rewrite beams_put_eq, blms_put, calls_put.
      split; [done|]. split; [done|]. split.
      { destruct (decide (self = p)) as [->|Hne].
        - rewrite beams_put_eq. assert (bs = bp) as -> by congruence.
          by rewrite <- Hi, with_ghost_idx_same.
        - by rewrite beams_put_ne. }
      do 2 (split; [done|]). intros _ _. split; [eauto|done].
    + mrun. intros [= <-]. exists true, bs. repeat split; try done.
  - mrun. intros [= <-]. exists false, bs. repeat split; try done.
Qed.

Lemma copy_pointers_inv w self p bs bp w' :
  beams w !! self = Some bs -> beams w !! p = Some bp ->
  copy_pointers self p w = (Ret tt, w') ->
  exists bs' bp' r (lm mm : Z),
    beams w' !! self = Some bs' /\ beams w' !! p = Some bp' /\
    __blm bs' = Some r /\ __blm bp' = Some r /\
    __lmax bp = Some lm /\ __mmax bp = Some mm /\
    btype bs' = btype bp /\ amplitude bs' = amplitude bp /\
    __lmax bs' = Some (Z.max lm 0) /\
    __mmax bs' = Some (Z.min mm (Z.max lm 0)) /\
    __ghost_idx bs' = __ghost_idx bs /\
    (self <> p -> bp' = with_blm (Some r) bp) /\
    ((__blm bp = Some r /\ blms w' = blms w /\ calls w' = calls w) \/
     (__blm bp = None /\ blms w !! r = None /\ is_Some (blms w' !! r) /\
      exists c cs, calls w' = (calls w ++ c :: cs)%list)).
Proof.
  intros Es Ep. unfold copy_pointers. unfold bind at 1.
  destruct (blm p w) as [[r|e] w2] eqn:Eblm; [|done].
  destruct (blm_inv _ _ _ _ _ Ep Eblm) as (E2 & Hfr & Hm).
  apply materialised_grows in Hm.
  assert (blms w2 = blms w2 /\ calls w2 = calls w2) as _ by done.
  destruct (__lmax bp) as [lm|] eqn:Hl;
    [|destruct (decide (self = p)) as [->|Hne];
      [|rewrite <- (Hfr self Hne) in Es]; unfold set_lmax; by mrun].
  destruct (__mmax bp) as [mm|] eqn:Hmm;
    [|destruct (decide (self = p)) as [->|Hne];
      [|rewrite <- (Hfr self Hne) in Es]; unfold set_lmax, set_mmax; by mrun].
  destruct (decide (self = p)) as [->|Hne].
  - assert (bs = bp) as -> by congruence.
    unfold set_lmax, set_mmax. mrun. intros [= <-].
    eexists _, _, r, lm, mm. rewrite !beams_put_eq.
    split; [done|]. split; [done|]. cbn.
    do 9 (split; [done|]). split; [done|].
    destruct Hm as [(? & ? & ?)|(? & ? & ? & ?)]; [left|right];
      rewrite ?blms_put, ?calls_put; done.
  - rewrite <- (Hfr self Hne) in Es.
    unfold set_lmax, set_mmax. mrun. intros [= <-].
    eexists _, _, r, lm, mm. rewrite beams_put_eq, beams_put_ne by done.
    split; [done|]. split; [done|]. cbn.
    do 9 (split; [done|]). split; [done|].
    destruct Hm as [(? & ? & ?)|(? & ? & ? & ?)]; [left|right];
      rewrite ?blms_put, ?calls_put; done.
Qed.

Lemma reuse_blm_inv w self p bs bp w' :
  beams w !! self = Some bs -> beams w !! p = Some bp ->
  reuse_blm self (PyBeam p) w = (Ret tt, w') ->
  exists bs' bp' r (lm mm : Z) pg,
    beams w' !! self = Some bs' /\ beams w' !! p = Some bp' /\
    __blm bs' = Some r /\ __blm bp' = Some r /\
    __ghost bp = Some pg /\ __lmax bp = Some lm /\ __mmax bp = Some mm /\
    btype bs' = btype bp /\ amplitude bs' = amplitude bp /\
    __lmax bs' = Some (Z.max lm 0) /\
    __mmax bs' = Some (Z.min mm (Z.max lm 0)) /\
    (self <> p -> bp' = with_blm (Some r) bp) /\
    (pg = true -> __ghost bs = Some true ->
     is_Some (__ghost_idx bp) /\ __ghost_idx bs' = __ghost_idx bp) /\
    ((__blm bp = Some r /\ blms w' = blms w /\ calls w' = calls w) \/
     (__blm bp = None /\ blms w !! r = None /\ is_Some (blms w' !! r) /\
      exists c cs, calls w' = (calls w ++ c :: cs)%list)).
Proof.
  intros Es Ep. rewrite reuse_blm_split. unfold bind at 1.
  destruct (adopt_ghost_idx self p w) as [[[]|e] w1] eqn:Ea; [|done].
  destruct (adopt_ghost_idx_inv _ _ _ _ _ _ Es Ep Ea)
    as (pg & bs1 & Hpg & E1s & E1p & Hb1 & Hc1 & Hidx).
  intros Hc.
  destruct (copy_pointers_inv _ _ _ _ _ _ E1s E1p Hc)
    as (bs' & bp' & r & lm & mm & Es' & Ep' & Hbs & Hbp & Hl & Hmm & Hbt
        & Ham & Hl' & Hm' & Hi' & Hpart & Hgrow).
  exists bs', bp', r, lm, mm, pg. do 11 (split; [done|]).
  split; [done|]. split.
  - intros Ht Hsg. destruct (Hidx Ht Hsg) as [? Heq]. split; [done|].
    by rewrite Hi'.
  - by rewrite <- Hb1, <- Hc1.
Qed.

(** C7. After [b2.reuse_blm(b1)] has returned, [b2.blm] and [b1.blm] are
    one tuple object, and [b2] has [b1]'s [btype] and [amplitude]. Its
    [lmax] is [max(b1.lmax, 0)], which is [b1.lmax] when that is not
    negative; its [mmax] is the smaller of [b1.mmax] and that [lmax], which
    is [b1.mmax] only if [b1.mmax <= b1.lmax]. Two ghosts end with the same
    [ghost_idx]. An argument that is not a Beam raises TypeError and
    changes nothing. *)
Theorem reuse_blm_aliases w self p bs bp w' (o : pyobj) :
  beams w !! self = Some bs -> beams w !! p = Some bp ->
  reuse_blm self (PyBeam p) w = (Ret tt, w') ->
  (exists bs' bp' r (lm mm : Z),
     beams w' !! self = Some bs' /\ beams w' !! p = Some bp' /\
     __blm bs' = Some r /\ __blm bp' = Some r /\
     btype bs' = btype bp' /\ amplitude bs' = amplitude bp' /\
     __lmax bp = Some lm /\ __mmax bp = Some mm /\
     __lmax bs' = Some (Z.max lm 0) /\
     (0 <= lm -> __lmax bs' = __lmax bp')%Z /\
     __mmax bs' = Some (Z.min mm (Z.max lm 0)) /\
     (0 <= lm -> mm <= lm -> __mmax bs' = __mmax bp')%Z /\
     (__ghost bp = Some true -> __ghost bs = Some true ->
      is_Some (__ghost_idx bp') /\ __ghost_idx bs' = __ghost_idx bp')) /\
  ((forall l, o <> PyBeam l) ->
   reuse_blm self o w
   = (Raise (TypeError "partner must be Beam object"), w)).
Proof.
  intros Es Ep Hrun. split.
  - destruct (reuse_blm_inv _ _ _ _ _ _ Es Ep Hrun)
      as (bs' & bp' & r & lm & mm & pg & Es' & Ep' & Hbs & Hbp & Hpg & Hl
          & Hmm & Hbt & Ham & Hl' & Hm' & Hpart & Hidx & _).
    exists bs', bp', r, lm, mm. do 4 (split; [done|]).
    destruct (decide (self = p)) as [->|Hne].
    + assert (bp' = bs') as -> by congruence.
      do 4 (split; [done|]). split; [done|]. split; [done|].
      split; [done|]. split; [done|]. intros Hg1 Hg2.
      assert (pg = true) as -> by congruence.
      destruct (Hidx eq_refl Hg2) as [Hs Heq]. split; [|done].
      by rewrite Heq.
    + rewrite (Hpart Hne). cbn.
      do 4 (split; [done|]). split; [done|].
      split; [by intros ?; rewrite Hl', Hl, Z.max_l|].
      split; [done|].
      split; [by intros ? ?; rewrite Hm', Hmm, Z.max_l, Z.min_l|].
      intros Hg1 Hg2. assert (pg = true) as -> by congruence.
      apply (Hidx eq_refl Hg2).
  - intros Ho. destruct o; try done. by destruct (Ho l).
Qed.

(** C10. When the partner holds no coefficients, a [reuse_blm] that
    returns has made them on the partner: the partner now holds a tuple
    that did not exist before, the same one as the caller, and a
    collaborator was called. A partner whose [btype] is none of Gaussian,
    PO and EG makes the call raise the getter's ValueError. A Gaussian
    main beam with its width and band limits set makes it return. *)
Theorem reuse_blm_materialises_partner w self p bs bp :
  beams w !! self = Some bs -> beams w !! p = Some bp -> __blm bp = None ->
  (forall w',
     reuse_blm self (PyBeam p) w = (Ret tt, w') ->
     exists bs' bp' r,
       beams w' !! p = Some bp' /\ __blm bp' = Some r /\ bp' <> bp /\
       beams w' !! self = Some bs' /\ __blm bs' = Some r /\
       blms w !! r = None /\ is_Some (blms w' !! r) /\
       exists c cs, calls w' = (calls w ++ c :: cs)%list) /\
  (forall pg sg,
     __ghost bp = Some pg -> __ghost bs = Some sg ->
     (pg && sg = true -> is_Some (__ghost_idx bp)) ->
     btype bp <> "Gaussian" -> btype bp <> "PO" -> btype bp <> "EG" ->
     fst (reuse_blm self (PyBeam p) w)
     = Raise (ValueError ("btype = " ++ btype bp ++ " not recognized"))) /\
  (forall f (lm mm : Z),
     __ghost bp = Some false -> btype bp = "Gaussian" ->
     __fwhm bp = Some f -> __lmax bp = Some lm -> __mmax bp = Some mm ->
     exists w', reuse_blm self (PyBeam p) w = (Ret tt, w')).
Proof.
  intros Es Ep Hnone. split; [|split].
  - intros w' Hrun.
    destruct (reuse_blm_inv _ _ _ _ _ _ Es Ep Hrun)
      as (bs' & bp' & r & lm & mm & pg & Es' & Ep' & Hbs & Hbp & _ & _
          & _ & _ & _ & _ & _ & _ & _ & Hgrow).
    destruct Hgrow as [(Hc & _)|(_ & Hnew & Hsome & Hcalls)];
      [congruence|].
    exists bs', bp', r. split; [done|]. split; [done|].
    split; [intros ->; congruence|]. done.
  - intros pg sg Hpg Hsg Hidx Hg Hpo Heg.
    apply String.eqb_neq in Hg, Hpo, Heg.
    unfold reuse_blm, blm.
    destruct (decide (self = p)) as [->|Hne].
    + assert (bs = bp) as -> by congruence.
      assert (sg = pg) as -> by congruence.
      destruct pg; simpl in Hidx.
      * destruct Hidx as [i Hi]; [done|]. mrun. reflexivity.
      * mrun. reflexivity.
    + destruct pg, sg; simpl in Hidx;
        try (destruct Hidx as [i Hi]; [done|]); mrun; reflexivity.
  - intros f lm mm Hg Hbt Hf Hl Hmm.
    unfold reuse_blm, blm, gen_gaussian_blm, copol_blm, log, alloc_blm,
      set_lmax, set_mmax.
    destruct (decide (self = p)) as [->|Hne];
      [assert (bs = bp) as -> by congruence|];
      mrun; eauto.
Qed.

(** ** Construction, outside the claims *)

(** Without a band limit [__init__] stops at the [lmax] assignment: the
    object is left with its plain attributes and [dead]. *)
Lemma new_Beam_lmax_None_run a w :
  a_lmax a = None ->
  new_Beam a w
  = (Raise (NameError "fwhm"),
     put (fresh (dom (beams w))) (with_dead (Some (a_dead a)) (blank a)) w).
Proof.
  intros Ev. unfold new_Beam. rewrite Ev.
  erewrite (bind_ret_run (alloc_beam _)); [|reflexivity].
  erewrite (bind_ret_run (set_dead _ _));
    [|by apply set_dead_no_ghosts; [apply beams_put_eq|]].
  rewrite put_put. reflexivity.
Qed.




(** ** Band limits after construction *)


(** ** Synthesising coefficients *)

Lemma gen_gaussian_blm_run w self b (f : float) (lm : Z) :
  beams w !! self = Some b -> __fwhm b = Some f -> __lmax b = Some lm ->
  let r := fresh (dom (blms w)) in
  exists w',
    gen_gaussian_blm self w = (Ret tt, w') /\
    beams w'
    = <[self := with_blm (Some r) (with_btype "Gaussian" b)]> (beams w) /\
    blms w' = <[r := gaussian_triplet f lm (amplitude b)]> (blms w) /\
    calls w'
    = (calls w
       ++ [CallGauss f lm; CallCopol (mkBlmKwargs None None (Some f))])%list /\
    files w' = files w.
Proof.
  intros Eb Hf Hl r. eexists. split.
  - unfold gen_gaussian_blm, copol_blm, log, alloc_blm. mrun. reflexivity.
  - rewrite beams_put, blms_put, calls_put, files_put.
    cbn [beams blms files calls set_blms set_calls].
    by rewrite <- app_assoc.
Qed.


(** ** Deleting coefficients on a main beam *)

Lemma with_blm_None_idem b : with_blm None (with_blm None b) = with_blm None b.
Proof. reflexivity. Qed.

(** What [delete_blm] does to the store, for a beam that has a list of
    ghosts: the references to coefficients go, on the beam and, if asked
    for, on its ghosts; the tuples themselves stay. *)
Lemma delete_blm_effect w p b gs (flag : bool) :
  beams w !! p = Some b -> __ghosts b = Some gs ->
  (forall g, g ∈ gs -> is_Some (beams w !! g)) ->
  exists w',
    delete_blm p flag w = (Ret tt, w') /\
    blms w' = blms w /\ calls w' = calls w /\ files w' = files w /\
    forall l,
      beams w' !! l
      = if bool_decide (l = p \/ (flag = true /\ l ∈ gs))
        then with_blm None <$> beams w !! l
        else beams w !! l.
Proof.
  intros Eb Hgs Hall. unfold delete_blm.
  rewrite (bind_ret_run _ _ _ _ _ (try_del_blm_run _ _ _ Eb)).
  unfold ghosts.
  erewrite (bind_ret_run (getpriv _ _ _));
    [|by eapply getpriv_run; [apply beams_put_eq|]].
  destruct (negb (bool_decide (gs = [])) && flag) eqn:Hc.
  - apply andb_true_iff in Hc as [_ ->].
    erewrite (bind_ret_run (getpriv _ _ _));
      [|by eapply getpriv_run; [apply beams_put_eq|]].
    destruct (for_each_put
                (fun g => try_except_AttributeError (del_blm g) (ret tt))
                (with_blm None) gs (put p (with_blm None b) w))
      as (w' & Hrun & Hs & Hcs & Hfs & Hl); [apply try_del_blm_run|done| |].
    { intros g Hin. destruct (decide (p = g)) as [<-|Hne].
      - rewrite beams_put_eq. eauto.
      - rewrite beams_put_ne by done. by apply Hall. }
    exists w'. split; [done|].
    rewrite Hs, Hcs, Hfs, blms_put, calls_put, files_put.
    do 3 (split; [done|]). intros l. rewrite Hl.
    destruct (decide (l = p)) as [->|Hne].
    + rewrite beams_put_eq, Eb, bool_decide_eq_true_2 by (by left).
      by destruct (decide (p ∈ gs)).
    + rewrite beams_put_ne by done.
      destruct (decide (l ∈ gs)) as [Hin|Hin].
      * by rewrite bool_decide_eq_true_2 by (by right).
      * rewrite bool_decide_eq_false_2; [done|]. by intros [?|[_ ?]].
  - eexists. split; [done|]. rewrite blms_put, calls_put, files_put.
    do 3 (split; [done|]). intros l.
    destruct (decide (l = p)) as [->|Hne].
    + by rewrite beams_put_eq, Eb, bool_decide_eq_true_2 by (by left).
    + rewrite beams_put_ne by done.
      rewrite bool_decide_eq_false_2; [done|].
      intros [?|[-> Hin]]; [done|].
      rewrite andb_true_r in Hc. apply negb_false_iff in Hc.
      apply bool_decide_eq_true in Hc as ->. by apply elem_of_nil in Hin.
Qed.


Lemma blm_Gaussian_run w p b (f : float) (lm : Z) :
  beams w !! p = Some b -> __blm b = None -> btype b = "Gaussian" ->
  __fwhm b = Some f -> __lmax b = Some lm ->
  let r := fresh (dom (blms w)) in
  exists w',
    blm p w = (Ret r, w') /\
    beams w' = <[p := with_blm (Some r) b]> (beams w) /\
    blms w' = <[r := gaussian_triplet f lm (amplitude b)]> (blms w) /\
    calls w'
    = (calls w
       ++ [CallGauss f lm; CallCopol (mkBlmKwargs None None (Some f))])%list /\
    files w' = files w.
Proof.
  intros Eb Hb Hbt Hf Hl r.
  destruct (gen_gaussian_blm_run w p b f lm Eb Hf Hl)
    as (w' & Hrun & Hbs & Hs & Hc & Hfs).
  exists w'. split; [|by rewrite Hbs, <- Hbt, with_btype_same].
  unfold blm, try_except_AttributeError.
  erewrite getpriv_missing by done. unfold bind at 1.
  erewrite getattr_run by done. rewrite Hbt.
  cbn [String.eqb Ascii.eqb Bool.eqb].
  cbn match. unfold bind at 1. rewrite Hrun.
  eapply getpriv_run; [by rewrite Hbs, lookup_insert_eq|done].
Qed.


(** ** The [dead] flag of a ghost *)


(** ** Loading that fails *)


(** ** Ghosts that cannot be built *)

Lemma ghost_opts_lmax nm p_az p_el p_polang p_pol p_btype pf pd (pl pm : Z)
  kw :
  a_lmax (ghost_opts nm p_az p_el p_polang p_pol p_btype pf pd pl pm kw)
  = default (Some pl) (k_lmax kw).
Proof. unfold ghost_opts. simpl. by destruct (k_lmax kw). Qed.


(** ** Sharing that fails half way *)


(** ** What a ghost takes from its parent *)


(** ** Reading coefficients for the first time *)

(** The first reading of [blm], in the terms of the model. *)
Lemma blm_first_read w self b :
  beams w !! self = Some b -> __blm b = None ->
  (forall (f : float) (lm : Z),
     btype b = "Gaussian" -> __fwhm b = Some f -> __lmax b = Some lm ->
     exists r w',
       blm self w = (Ret r, w') /\ blms w !! r = None /\
       blms w' !! r = Some (gaussian_triplet f lm (amplitude b)) /\
       beams w' !! self = Some (with_blm (Some r) b)) /\
  (forall fname arr (row : list elt),
     (btype b = "PO" /\ po_file b = Some fname) \/
     (btype b = "EG" /\ eg_file b = Some fname) ->
     files w !! npy_path fname = Some arr ->
     length (atleast_2d arr) <> 3 \/ cross_pol b = false ->
     atleast_2d arr !! 0 = Some row ->
     let opts := mkBlmKwargs (Some (deconv_q b)) (Some (normalize b)) None in
     exists r w',
       blm self w = (Ret r, w') /\ blms w !! r = None /\
       blms w' !! r = Some (get_copol_blm (scaled (amplitude b) row) opts) /\
       beams w' !! self = Some (with_blm (Some r) b) /\
       calls w'
       = (calls w ++ [CallLoad (npy_path fname); CallCopol opts])%list) /\
  (btype b <> "Gaussian" -> btype b <> "PO" -> btype b <> "EG" ->
   blm self w
   = (Raise (ValueError ("btype = " ++ btype b ++ " not recognized")), w)).
Proof.
  intros Eb Hb. split; [|split].
  - intros f lm Hbt Hf Hl.
    destruct (blm_Gaussian_run w self b f lm Eb Hb Hbt Hf Hl)
      as (w' & Hrun & Hbs & Hs & _).
    exists (fresh (dom (blms w))), w'. split; [done|].
    split; [apply fresh_blm_unused|]. rewrite Hbs, Hs.
    by rewrite !lookup_insert_eq.
  - intros fname arr row Hbt Hf Hor E0 opts.
    exists (fresh (dom (blms w))). eexists. split.
    + unfold blm, load_blm, np_load, log, index, alloc_blm, copol_blm.
      destruct Hbt as [[Hbt Hfile]|[Hbt Hfile]];
        (destruct (length (atleast_2d arr) =? 3)%nat eqn:El;
         [destruct Hor as [Hne|Hcp]; [apply Nat.eqb_eq in El; done|]|]);
        mrun; rewrite ?E0; unfold log, alloc_blm; mrun; reflexivity.
    + split; [apply fresh_blm_unused|]. wsimp.
      rewrite lookup_insert_eq, <- app_assoc. done.
  - intros Hg Hpo Heg. apply String.eqb_neq in Hg, Hpo, Heg.
    unfold blm. mrun. reflexivity.
Qed.


(** ** What every method keeps

    Properties of the store that hold after any sequence of actions, given
    that the steps that assign the band limit, the role and the list of
    ghosts keep them. *)

Section Reads.

Context (J : World -> Prop).

Lemma pres_getpriv {A} l (proj : Beam -> option A) attr :
  preserves J (getpriv l proj attr).
Proof.
  unfold getpriv. apply pres_bind; [apply pres_deref|]. intros b.
  destruct (proj b); [apply pres_ret | apply pres_raise].
Qed.

Lemma pres_getattr {A} l (proj : Beam -> A) : preserves J (getattr l proj).
Proof.
  unfold getattr. apply pres_bind; [apply pres_deref|]. intros b.
  apply pres_ret.
Qed.

Lemma pres_raise_named {A} cls e : preserves J (raise_named (A:=A) cls e).
Proof.
  unfold raise_named. apply pres_bind; [apply pres_lookup_name|].
  intros _. apply pres_raise.
Qed.

Lemma pres_bind_post {A B} (Q : A -> World -> Prop) (m : M A)
  (k : A -> M B) :
  preserves J m ->
  (forall w a w', m w = (Ret a, w') -> Q a w') ->
  (forall a, preserves (fun w => J w /\ Q a w) (k a)) ->
  preserves J (bind m k).
Proof.
  intros Hm HQ Hk w Hw. unfold bind. specialize (Hm w Hw).
  destruct (m w) as [[a|e] w1] eqn:E; simpl in *; [|done].
  apply (Hk a w1). split; [done|]. by eapply HQ.
Qed.

End Reads.

Lemma pres_and {A} (J1 J2 : World -> Prop) (m : M A) :
  preserves J1 m -> preserves J2 m ->
  preserves (fun w => J1 w /\ J2 w) m.
Proof. intros H1 H2 w [Hw1 Hw2]. split; [by apply H1 | by apply H2]. Qed.

Ltac rstep :=
  first
    [ apply pres_ret | apply pres_raise | apply pres_deref
    | apply pres_lookup_name | apply pres_lift | apply pres_index
    | apply pres_getpriv | apply pres_getattr | apply pres_raise_named ].

(** The guarded setters of the two roles. *)
Section Guarded.

Context (J : World -> Prop).

Hypothesis J_idx : forall l v, preserves J (assign l (with_ghost_idx v)).
Hypothesis J_count : forall l v, preserves J (assign l (with_ghost_count v)).
Hypothesis J_fwhm : forall l v, preserves J (assign l (with_fwhm v)).

Lemma guarded_set_ghost_idx l v : preserves J (set_ghost_idx l v).
Proof.
  unfold set_ghost_idx, ghost. apply pres_bind; [rstep|]. intros g.
  destruct g; [apply J_idx | rstep].
Qed.

Lemma guarded_set_ghost_count l c : preserves J (set_ghost_count l c).
Proof.
  unfold set_ghost_count, ghost. apply pres_bind; [rstep|]. intros g.
  destruct g; simpl; [rstep | apply J_count].
Qed.

Lemma guarded_set_fwhm l v : preserves J (set_fwhm l v).
Proof.
  unfold set_fwhm, lmax.
  repeat first
    [ apply J_fwhm | rstep | apply pres_bind; [|intros ?]
    | match goal with
      | |- preserves _ (match ?x with _ => _ end) => destruct x
      end ].
Qed.

End Guarded.

(** [create_ghost], from its steps. *)
Section Creation.

Context (J : World -> Prop).

Hypothesis J_set_ghost_idx : forall l v, preserves J (set_ghost_idx l v).
Hypothesis J_set_ghost_count : forall l c, preserves J (set_ghost_count l c).
Hypothesis J_new_Beam : forall a, preserves J (new_Beam a).
Hypothesis J_append :
  forall l g,
    preserves J
      (bind (ghosts l)
         (fun gs => assign l (with_ghosts (Some (gs ++ [g])%list)))).

Lemma creation_create_ghost l tag kw : preserves J (create_ghost l tag kw).
Proof.
  unfold create_ghost.
  apply pres_bind; [unfold ghost; rstep|]. intros g.
  destruct g; [rstep|].
  unfold fwhm, dead, lmax, mmax, ghost_count.
  do 10 (apply pres_bind; [rstep|]; intros ?).
  apply pres_bind; [apply J_new_Beam|]. intros gh.
  apply pres_bind; [rstep|]. intros c.
  apply pres_bind; [apply J_set_ghost_idx|]. intros _.
  apply pres_bind; [rstep|]. intros c'.
  apply pres_bind; [apply J_set_ghost_count|]. intros _.
  apply J_append.
Qed.

End Creation.

(** [allowed o] says that the operation [o], an assignment of [fwhm] or of
    [ghost_count], may be performed without breaking the property. *)
Section Invariant.

Context (J : World -> Prop) (allowed : operation -> Prop).

Hypothesis J_plain : forall l f, plain_update f -> preserves J (assign l f).
Hypothesis J_set_lmax : forall l v, preserves J (set_lmax l v).
Hypothesis J_set_fwhm :
  forall l v, allowed (OpSetFwhm l v) -> preserves J (set_fwhm l v).
Hypothesis J_set_ghost_idx : forall l v, preserves J (set_ghost_idx l v).
Hypothesis J_set_ghost_count :
  forall l c,
    allowed (OpSetGhostCount l c) -> preserves J (set_ghost_count l c).
Hypothesis J_new_Beam : forall a, preserves J (new_Beam a).
Hypothesis J_create_ghost :
  forall l tag kw, preserves J (create_ghost l tag kw).
Hypothesis J_alloc_blm : forall t0, preserves J (alloc_blm t0).
Hypothesis J_log : forall c, preserves J (log c).

Ltac istep :=
  first
    [ rstep
    | apply J_log | apply J_alloc_blm | apply J_set_lmax
    | apply J_set_ghost_idx | apply J_new_Beam | apply J_create_ghost
    | apply J_plain; constructor
    | apply pres_try
    | apply pres_for_each; intros ?
    | apply pres_bind; [|intros ?]
    | match goal with
      | |- preserves _ (match ?x with _ => _ end) => destruct x
      end ].

Lemma inv_set_dead l v : preserves J (set_dead l v).
Proof. unfold set_dead, ghosts. repeat istep. Qed.

Lemma inv_set_mmax l v : preserves J (set_mmax l v).
Proof. unfold set_mmax, lmax. repeat istep. Qed.

Lemma inv_np_load path : preserves J (np_load path).
Proof.
  unfold np_load. apply pres_bind; [apply J_log|]. intros _ w Hw.
  by destruct (files w !! path).
Qed.

Lemma inv_copol_blm blm0 opts : preserves J (copol_blm blm0 opts).
Proof. unfold copol_blm. repeat istep. Qed.

Lemma inv_gen_gaussian_blm l : preserves J (gen_gaussian_blm l).
Proof.
  unfold gen_gaussian_blm, fwhm, lmax, set_blm.
  repeat first [ apply inv_copol_blm | istep ].
Qed.

Lemma inv_load_blm l f kw : preserves J (load_blm l f kw).
Proof.
  unfold load_blm, set_blm.
  repeat first [ apply inv_copol_blm | apply inv_np_load | istep ].
Qed.

Lemma inv_blm l : preserves J (blm l).
Proof.
  unfold blm.
  repeat first [ apply inv_gen_gaussian_blm | apply inv_load_blm | istep ].
Qed.

Lemma inv_reuse_blm l partner : preserves J (reuse_blm l partner).
Proof.
  unfold reuse_blm. destruct partner; try apply pres_raise_named.
  unfold ghost, ghost_idx, lmax, mmax, set_blm.
  repeat first [ apply inv_blm | apply inv_set_mmax | istep ].
Qed.

Lemma inv_del_blm l : preserves J (del_blm l).
Proof. unfold del_blm. repeat istep. Qed.

Lemma inv_delete_blm l flag : preserves J (delete_blm l flag).
Proof.
  unfold delete_blm, ghosts.
  repeat first [ apply inv_del_blm | istep ].
Qed.

Lemma inv_perform o : allowed o -> preserves J (perform o).
Proof.
  destruct o; simpl; intros Ho.
  - apply pres_bind; [apply J_new_Beam | intros; apply pres_ret].
  - by apply J_set_ghost_count.
  - apply J_set_ghost_idx.
  - apply inv_set_dead.
  - apply J_set_lmax.
  - by apply J_set_fwhm.
  - apply inv_set_mmax.
  - apply J_plain. constructor.
  - apply J_plain. constructor.
  - apply pres_bind; [apply inv_blm | intros; apply pres_ret].
  - apply J_plain. constructor.
  - apply inv_gen_gaussian_blm.
  - apply inv_load_blm.
  - apply J_create_ghost.
  - apply inv_reuse_blm.
  - unfold get_offsets. repeat istep.
Qed.

Lemma inv_act a :
  (forall o, a = Do o -> allowed o) -> preserves J (act a).
Proof.
  destruct a; simpl; intros Ha;
    [apply inv_perform | apply inv_del_blm | apply inv_delete_blm].
  by apply Ha.
Qed.

Lemma inv_act_all acts w :
  Forall (fun a => forall o, a = Do o -> allowed o) acts ->
  J w -> J (act_all acts w).
Proof.
  revert w. induction acts as [|a acts IH]; simpl; intros w Hacts Hw; [done|].
  apply Forall_cons in Hacts as [Ha Hacts].
  apply IH; [done|]. by apply inv_act.
Qed.

End Invariant.

(** What [Beam(...)] leaves in the store, whether it returns or raises: one
    new object, on which the band limit, if assigned, is not negative, the
    role attributes are consistent, and the list of ghosts, if there is
    one, is empty. *)
Lemma new_Beam_outcome a w :
  exists X,
    snd (new_Beam a w) = put (fresh (dom (beams w))) X w /\
    (forall v : Z, __lmax X = Some v -> (0 <= v)%Z) /\
    role_ok X = true /\
    (__ghosts X = None \/ __ghosts X = Some []).
Proof.
  destruct (a_lmax a) as [v|] eqn:Ev.
  - rewrite (new_Beam_run a w v Ev). cbn zeta.
    destruct (resolve_fwhm (a_fwhm a) (Z.max v 0)) as [e|fw];
      eexists; (split; [reflexivity|]); cbn.
    + split; [intros ? [= <-]; lia|]. split; [done|by left].
    + split; [intros ? [= <-]; lia|]. unfold role_ok. cbn.
      destruct (a_ghost a); split; auto.
  - rewrite (new_Beam_lmax_None_run a w Ev).
    eexists. split; [reflexivity|]. cbn. split; [done|]. split; [done|].
    by left.
Qed.

(** *** The identity of a beam *)

Section Identity.

Context (l0 : loc) (b0 : Beam).

Lemma anchored_assign l f :
  (forall b, identity (f b) = identity b) ->
  preserves (anchored l0 b0) (assign l f).
Proof.
  intros Hf w (b & Eb & Hb). unfold assign, bind, deref.
  destruct (beams w !! l) as [bl|] eqn:El; simpl; [|by exists b].
  destruct (decide (l = l0)) as [->|Hne].
  - exists (f bl). rewrite beams_put_eq. split; [done|].
    rewrite Hf. congruence.
  - exists b. by rewrite beams_put_ne.
Qed.

Lemma anchored_new_Beam a : preserves (anchored l0 b0) (new_Beam a).
Proof.
  intros w (b & Eb & Hb). destruct (new_Beam_outcome a w) as (X & -> & _).
  exists b. rewrite beams_put_ne; [done|]. by eapply fresh_beam_ne.
Qed.

Lemma anchored_act_all acts w :
  anchored l0 b0 w -> anchored l0 b0 (act_all acts w).
Proof.
  apply (inv_act_all (anchored l0 b0) (fun _ => True));
    [..|by apply Forall_true].
  - intros l f []; by apply anchored_assign.
  - intros l [v|]; [by apply anchored_assign | by intros w0].
  - intros l v _. apply guarded_set_fwhm. intros.
    by apply anchored_assign.
  - apply guarded_set_ghost_idx. intros. by apply anchored_assign.
  - intros l c _. apply guarded_set_ghost_count. intros.
    by apply anchored_assign.
  - apply anchored_new_Beam.
  - apply creation_create_ghost.
    + apply guarded_set_ghost_idx. intros. by apply anchored_assign.
    + apply guarded_set_ghost_count. intros. by apply anchored_assign.
    + apply anchored_new_Beam.
    + intros l g. unfold ghosts. apply pres_bind; [rstep|]. intros gs.
      by apply anchored_assign.
  - by intros t0 w0.
  - by intros c w0.
Qed.

End Identity.


(** *** The band limit *)

Lemma lmax_nonneg_put l X w :
  lmax_nonneg w -> (forall v : Z, __lmax X = Some v -> (0 <= v)%Z) ->
  lmax_nonneg (put l X w).
Proof.
  intros Hw HX l' b' v. destruct (decide (l' = l)) as [->|Hne].
  - rewrite beams_put_eq. intros [= <-]. apply HX.
  - rewrite beams_put_ne by done. apply Hw.
Qed.

Lemma lmax_nonneg_assign l f :
  (forall b, __lmax (f b) = __lmax b) -> preserves lmax_nonneg (assign l f).
Proof.
  intros Hf w Hw. unfold assign, bind, deref.
  destruct (beams w !! l) as [bl|] eqn:El; simpl; [|done].
  apply lmax_nonneg_put; [done|]. intros v. rewrite Hf. by apply (Hw l).
Qed.

Lemma lmax_nonneg_act_all acts w :
  lmax_nonneg w -> lmax_nonneg (act_all acts w).
Proof.
  apply (inv_act_all lmax_nonneg (fun _ => True));
    [..|by apply Forall_true].
  - intros l f []; by apply lmax_nonneg_assign.
  - intros l [v|]; [|by intros w0]. intros w0 Hw.
    unfold set_lmax, assign, bind, deref.
    destruct (beams w0 !! l) as [bl|] eqn:El; simpl; [|done].
    apply lmax_nonneg_put; [done|]. intros ? [= <-]. lia.
  - intros l v _. apply guarded_set_fwhm. intros.
    by apply lmax_nonneg_assign.
  - apply guarded_set_ghost_idx. intros. by apply lmax_nonneg_assign.
  - intros l c _. apply guarded_set_ghost_count. intros.
    by apply lmax_nonneg_assign.
  - intros a w0 Hw. destruct (new_Beam_outcome a w0) as (X & -> & HX & _).
    by apply lmax_nonneg_put.
  - apply creation_create_ghost.
    + apply guarded_set_ghost_idx. intros. by apply lmax_nonneg_assign.
    + apply guarded_set_ghost_count. intros. by apply lmax_nonneg_assign.
    + intros a w0 Hw. destruct (new_Beam_outcome a w0) as (X & -> & HX & _).
      by apply lmax_nonneg_put.
    + intros l g. unfold ghosts. apply pres_bind; [rstep|]. intros gs.
      by apply lmax_nonneg_assign.
  - by intros t0 w0.
  - by intros c w0.
Qed.


(** *** The two roles *)

Lemma roles_exclusive_put l X w :
  roles_exclusive w -> role_ok X = true -> roles_exclusive (put l X w).
Proof.
  intros Hw HX l' b'. destruct (decide (l' = l)) as [->|Hne].
  - rewrite beams_put_eq. by intros [= <-].
  - rewrite beams_put_ne by done. apply Hw.
Qed.

Lemma roles_exclusive_assign l f :
  (forall b, role_ok (f b) = role_ok b) ->
  preserves roles_exclusive (assign l f).
Proof.
  intros Hf w Hw. unfold assign, bind, deref.
  destruct (beams w !! l) as [bl|] eqn:El; simpl; [|done].
  apply roles_exclusive_put; [done|]. rewrite Hf. by apply (Hw l).
Qed.

Lemma roles_exclusive_set_ghost_idx l v :
  preserves roles_exclusive (set_ghost_idx l v).
Proof.
  intros w Hw. unfold set_ghost_idx, ghost, getpriv, assign, bind, deref.
  destruct (beams w !! l) as [bl|] eqn:El; simpl; [|done].
  destruct (__ghost bl) as [[|]|] eqn:Hg; simpl; rewrite ?El; simpl;
    try done.
  apply roles_exclusive_put; [done|]. specialize (Hw l bl El).
  unfold role_ok in *. cbn. by rewrite Hg in *.
Qed.

Lemma roles_exclusive_set_ghost_count l c :
  preserves roles_exclusive (set_ghost_count l c).
Proof.
  intros w Hw. unfold set_ghost_count, ghost, getpriv, assign, bind, deref.
  destruct (beams w !! l) as [bl|] eqn:El; simpl; [|done].
  destruct (__ghost bl) as [[|]|] eqn:Hg; simpl; rewrite ?El; simpl;
    try done.
  apply roles_exclusive_put; [done|]. specialize (Hw l bl El).
  unfold role_ok in *. cbn. by rewrite Hg in *.
Qed.

Lemma roles_exclusive_new_Beam a : preserves roles_exclusive (new_Beam a).
Proof.
  intros w Hw. destruct (new_Beam_outcome a w) as (X & -> & _ & HX & _).
  by apply roles_exclusive_put.
Qed.

Lemma roles_exclusive_append l g :
  preserves roles_exclusive
    (bind (ghosts l)
       (fun gs => assign l (with_ghosts (Some (gs ++ [g])%list)))).
Proof.
  intros w Hw. unfold ghosts, getpriv, assign, bind, deref.
  destruct (beams w !! l) as [bl|] eqn:El; simpl; [|done].
  destruct (__ghosts bl) as [gs|] eqn:Hgs; simpl; rewrite ?El; simpl;
    [|done].
  apply roles_exclusive_put; [done|]. specialize (Hw l bl El).
  unfold role_ok in *. cbn. rewrite Hgs in Hw.
  by destruct (__ghost bl) as [[|]|].
Qed.

Lemma roles_exclusive_act_all acts w :
  roles_exclusive w -> roles_exclusive (act_all acts w).
Proof.
  apply (inv_act_all roles_exclusive (fun _ => True));
    [..|by apply Forall_true].
  - intros l f []; by apply roles_exclusive_assign.
  - intros l [v|]; [by apply roles_exclusive_assign | by intros w0].
  - intros l v _. apply guarded_set_fwhm. intros.
    by apply roles_exclusive_assign.
  - apply roles_exclusive_set_ghost_idx.
  - intros l c _. apply roles_exclusive_set_ghost_count.
  - apply roles_exclusive_new_Beam.
  - apply creation_create_ghost.
    + apply roles_exclusive_set_ghost_idx.
    + apply roles_exclusive_set_ghost_count.
    + apply roles_exclusive_new_Beam.
    + apply roles_exclusive_append.
  - by intros t0 w0.
  - by intros c w0.
Qed.


(** *** The list of ghosts *)

Section Ghosts.

Context (l0 : loc) (gs0 : list loc).

Lemma keeps_ghosts_assign l f :
  (forall b, __ghosts (f b) = __ghosts b) ->
  preserves (keeps_ghosts l0 gs0) (assign l f).
Proof.
  intros Hf w (b & gs & Eb & Hb & Hpre). unfold assign, bind, deref.
  destruct (beams w !! l) as [bl|] eqn:El; simpl; [|by exists b, gs].
  destruct (decide (l = l0)) as [->|Hne].
  - exists (f bl), gs. rewrite beams_put_eq. split; [done|].
    rewrite Hf. split; [congruence|done].
  - exists b, gs. by rewrite beams_put_ne.
Qed.

Lemma keeps_ghosts_new_Beam a : preserves (keeps_ghosts l0 gs0) (new_Beam a).
Proof.
  intros w (b & gs & Eb & Hb & Hpre).
  destruct (new_Beam_outcome a w) as (X & -> & _).
  exists b, gs. rewrite beams_put_ne; [done|]. by eapply fresh_beam_ne.
Qed.

Lemma keeps_ghosts_append l g :
  preserves (keeps_ghosts l0 gs0)
    (bind (ghosts l)
       (fun gs => assign l (with_ghosts (Some (gs ++ [g])%list)))).
Proof.
  intros w (b & gs & Eb & Hb & Hpre).
  unfold ghosts, getpriv, assign, bind, deref.
  destruct (beams w !! l) as [bl|] eqn:El; simpl; [|by exists b, gs].
  destruct (__ghosts bl) as [gl|] eqn:Hgl; simpl; rewrite ?El; simpl;
    [|by exists b, gs].
  destruct (decide (l = l0)) as [->|Hne].
  - exists (with_ghosts (Some (gl ++ [g])%list) bl), (gl ++ [g])%list.
    rewrite beams_put_eq. split; [done|]. split; [done|].
    assert (gl = gs) as -> by congruence. by apply prefix_app_r.
  - exists b, gs. by rewrite beams_put_ne.
Qed.

Lemma keeps_ghosts_act_all acts w :
  keeps_ghosts l0 gs0 w -> keeps_ghosts l0 gs0 (act_all acts w).
Proof.
  apply (inv_act_all (keeps_ghosts l0 gs0) (fun _ => True));
    [..|by apply Forall_true].
  - intros l f []; by apply keeps_ghosts_assign.
  - intros l [v|]; [by apply keeps_ghosts_assign | by intros w0].
  - intros l v _. apply guarded_set_fwhm. intros.
    by apply keeps_ghosts_assign.
  - apply guarded_set_ghost_idx. intros. by apply keeps_ghosts_assign.
  - intros l c _. apply guarded_set_ghost_count. intros.
    by apply keeps_ghosts_assign.
  - apply keeps_ghosts_new_Beam.
  - apply creation_create_ghost.
    + apply guarded_set_ghost_idx. intros. by apply keeps_ghosts_assign.
    + apply guarded_set_ghost_count. intros. by apply keeps_ghosts_assign.
    + apply keeps_ghosts_new_Beam.
    + apply keeps_ghosts_append.
  - by intros t0 w0.
  - by intros c w0.
Qed.

End Ghosts.


(** *** Families *)

Lemma ghost_in_put g l X w :
  ghost_in g w ->
  (forall bl, beams w !! l = Some bl -> __ghost X = __ghost bl) ->
  ghost_in g (put l X w).
Proof.
  intros (bg & Eg & Hg) HX. destruct (decide (g = l)) as [->|Hne].
  - exists X. rewrite beams_put_eq. split; [done|].
    by rewrite (HX bg Eg).
  - exists bg. by rewrite beams_put_ne.
Qed.

Lemma ghost_in_assign g l f :
  (forall b, __ghost (f b) = __ghost b) -> preserves (ghost_in g) (assign l f).
Proof.
  intros Hf w Hw. unfold assign, bind, deref.
  destruct (beams w !! l) as [bl|] eqn:El; simpl; [|done].
  apply ghost_in_put; [done|]. intros bl' El'. by simplify_eq.
Qed.

Lemma family_ok_assign l f :
  (forall b, __ghost (f b) = __ghost b) ->
  (forall b, __ghosts (f b) = __ghosts b) ->
  preserves family_ok (assign l f).
Proof.
  intros Hf Hfs w Hw. unfold assign, bind, deref.
  destruct (beams w !! l) as [bl|] eqn:El; simpl; [|done].
  intros p bp gs g Ep Hgs Hin.
  apply ghost_in_put; [|intros bl' El'; by simplify_eq].
  destruct (decide (p = l)) as [->|Hne].
  - rewrite beams_put_eq in Ep. injection Ep as <-. rewrite Hfs in Hgs.
    by eapply Hw.
  - rewrite beams_put_ne in Ep by done. by eapply Hw.
Qed.

Lemma family_ok_new_Beam a : preserves family_ok (new_Beam a).
Proof.
  intros w Hw. destruct (new_Beam_outcome a w) as (X & -> & _ & _ & HX).
  intros p bp gs g Ep Hgs Hin.
  destruct (decide (p = fresh (dom (beams w)))) as [->|Hne].
  - rewrite beams_put_eq in Ep. injection Ep as <-.
    destruct HX as [HX|HX]; rewrite HX in Hgs; [done|].
    injection Hgs as <-. by apply elem_of_nil in Hin.
  - rewrite beams_put_ne in Ep by done.
    apply ghost_in_put; [by eapply Hw|].
    intros bl El. by rewrite fresh_beam_unused in El.
Qed.

Lemma ghost_in_new_Beam g a : preserves (ghost_in g) (new_Beam a).
Proof.
  intros w Hw. destruct (new_Beam_outcome a w) as (X & -> & _).
  apply ghost_in_put; [done|].
  intros bl El. by rewrite fresh_beam_unused in El.
Qed.

Lemma family_ok_append l g :
  preserves (fun w => family_ok w /\ ghost_in g w)
    (bind (ghosts l)
       (fun gs => assign l (with_ghosts (Some (gs ++ [g])%list)))).
Proof.
  intros w [Hw Hg]. unfold ghosts, getpriv, assign, bind, deref.
  destruct (beams w !! l) as [bl|] eqn:El; simpl; [|done].
  destruct (__ghosts bl) as [gl|] eqn:Hgl; simpl; rewrite ?El; simpl;
    [|done].
  assert (forall x, ghost_in x w ->
            ghost_in x (put l (with_ghosts (Some (gl ++ [g])%list) bl) w))
    as Hlift.
  { intros x Hx. apply ghost_in_put; [done|].
    intros bl' El'. by simplify_eq. }
  split; [|by apply Hlift].
  intros p bp gs x Ep Hgs Hin. apply Hlift.
  destruct (decide (p = l)) as [->|Hne].
  - rewrite beams_put_eq in Ep. injection Ep as <-. cbn in Hgs.
    injection Hgs as <-. apply elem_of_app in Hin as [Hin|Hin].
    + by eapply Hw.
    + by apply list_elem_of_singleton in Hin as ->.
  - rewrite beams_put_ne in Ep by done. by eapply Hw.
Qed.

Lemma family_ok_create_ghost l tag kw :
  preserves family_ok (create_ghost l tag kw).
Proof.
  unfold create_ghost.
  apply pres_bind; [unfold ghost; rstep|]. intros g.
  destruct g; [rstep|].
  unfold fwhm, dead, lmax, mmax, ghost_count.
  do 10 (apply pres_bind; [rstep|]; intros ?).
  apply (pres_bind_post _ (fun g w => ghost_in g w)).
  - apply family_ok_new_Beam.
  - intros w gh w' Hrun.
    apply new_Beam_inv in Hrun as (v & fw & Ev & Er & -> & ->).
    eexists. rewrite beams_put_eq. split; [done|]. reflexivity.
  - intros gh.
    apply pres_bind; [rstep|]. intros c.
    apply pres_bind.
    { apply pres_and.
      - apply guarded_set_ghost_idx. intros. by apply family_ok_assign.
      - apply guarded_set_ghost_idx. intros. by apply ghost_in_assign. }
    intros _. apply pres_bind; [rstep|]. intros c'.
    apply pres_bind.
    { apply pres_and.
      - apply guarded_set_ghost_count. intros. by apply family_ok_assign.
      - apply guarded_set_ghost_count. intros. by apply ghost_in_assign. }
    intros _. apply family_ok_append.
Qed.

Lemma family_ok_act_all acts w : family_ok w -> family_ok (act_all acts w).
Proof.
  apply (inv_act_all family_ok (fun _ => True));
    [..|by apply Forall_true].
  - intros l f []; by apply family_ok_assign.
  - intros l [v|]; [by apply family_ok_assign | by intros w0].
  - intros l v _. apply guarded_set_fwhm. intros.
    by apply family_ok_assign.
  - apply guarded_set_ghost_idx. intros. by apply family_ok_assign.
  - intros l c _. apply guarded_set_ghost_count. intros.
    by apply family_ok_assign.
  - apply family_ok_new_Beam.
  - apply family_ok_create_ghost.
  - by intros t0 w0.
  - by intros c w0.
Qed.


(** *** The width *)

Section Width.

Context (l0 : loc) (f0 : float).

Lemma width_kept_assign l f :
  (forall b, __fwhm (f b) = __fwhm b) ->
  preserves (width_kept l0 f0) (assign l f).
Proof.
  intros Hf w (b & Eb & Hb). unfold assign, bind, deref.
  destruct (beams w !! l) as [bl|] eqn:El; simpl; [|by exists b].
  destruct (decide (l = l0)) as [->|Hne].
  - exists (f bl). rewrite beams_put_eq. split; [done|].
    rewrite Hf. congruence.
  - exists b. by rewrite beams_put_ne.
Qed.

Lemma width_kept_assign_other l f :
  l <> l0 -> preserves (width_kept l0 f0) (assign l f).
Proof.
  intros Hne w (b & Eb & Hb). unfold assign, bind, deref.
  destruct (beams w !! l) as [bl|] eqn:El; simpl; [|by exists b].
  exists b. by rewrite beams_put_ne.
Qed.

Lemma width_kept_new_Beam a : preserves (width_kept l0 f0) (new_Beam a).
Proof.
  intros w (b & Eb & Hb). destruct (new_Beam_outcome a w) as (X & -> & _).
  exists b. rewrite beams_put_ne; [done|]. by eapply fresh_beam_ne.
Qed.

Lemma width_kept_act_all acts w :
  forallb (fun a => negb (assigns_fwhm_of l0 a)) acts = true ->
  width_kept l0 f0 w -> width_kept l0 f0 (act_all acts w).
Proof.
  intros Hacts.
  apply (inv_act_all (width_kept l0 f0)
           (fun o => forall l v, o = OpSetFwhm l v -> l <> l0)).
  - intros l f []; by apply width_kept_assign.
  - intros l [v|]; [by apply width_kept_assign | by intros w0].
  - intros l v Hne. specialize (Hne l v eq_refl). unfold set_fwhm, lmax.
    repeat first
      [ by apply width_kept_assign_other | rstep
      | apply pres_bind; [|intros ?]
      | match goal with
        | |- preserves _ (match ?x with _ => _ end) => destruct x
        end ].
  - apply guarded_set_ghost_idx. intros. by apply width_kept_assign.
  - intros l c _. apply guarded_set_ghost_count. intros.
    by apply width_kept_assign.
  - apply width_kept_new_Beam.
  - apply creation_create_ghost.
    + apply guarded_set_ghost_idx. intros. by apply width_kept_assign.
    + apply guarded_set_ghost_count. intros. by apply width_kept_assign.
    + apply width_kept_new_Beam.
    + intros l g. unfold ghosts. apply pres_bind; [rstep|]. intros gs.
      by apply width_kept_assign.
  - by intros t0 w0.
  - by intros c w0.
  - apply Forall_forall. intros a Ha o -> l v -> ->.
    rewrite forallb_forall in Hacts. apply list_elem_of_In in Ha.
    specialize (Hacts _ Ha). cbn in Hacts.
    by rewrite bool_decide_eq_true_2 in Hacts.
Qed.

End Width.


(** *** The count of ghosts *)

Lemma count_matches_put l X w :
  count_matches w ->
  (forall gs (c : Z),
     __ghosts X = Some gs -> __ghost_count X = Some c ->
     c = Z.of_nat (length gs)) ->
  count_matches (put l X w).
Proof.
  intros Hw HX l' b' gs c. destruct (decide (l' = l)) as [->|Hne].
  - rewrite beams_put_eq. intros [= <-]. apply HX.
  - rewrite beams_put_ne by done. apply Hw.
Qed.

Lemma count_matches_assign l f :
  (forall b, __ghosts (f b) = __ghosts b) ->
  (forall b, __ghost_count (f b) = __ghost_count b) ->
  preserves count_matches (assign l f).
Proof.
  intros Hf Hc w Hw. unfold assign, bind, deref.
  destruct (beams w !! l) as [bl|] eqn:El; simpl; [|done].
  apply count_matches_put; [done|]. intros gs c. rewrite Hf, Hc.
  by apply (Hw l).
Qed.

Lemma count_matches_new_Beam a : preserves count_matches (new_Beam a).
Proof.
  intros w Hw. destruct (a_lmax a) as [v|] eqn:Ev.
  - rewrite (new_Beam_run a w v Ev). cbn zeta.
    destruct (resolve_fwhm (a_fwhm a) (Z.max v 0)) as [e|fw]; cbn [snd];
      (apply count_matches_put; [done|]); cbn; [done|].
    destruct (a_ghost a); [done|]. by intros gs c [= <-] [= <-].
  - rewrite (new_Beam_lmax_None_run a w Ev). cbn [snd].
    by apply count_matches_put.
Qed.

(** The last two statements of [create_ghost]: the count goes up and the
    ghost goes into the list. *)
Lemma count_matches_register l g :
  preserves count_matches
    (bind (ghost_count l)
       (fun c =>
          bind (set_ghost_count l (c + 1))
            (fun _ =>
               bind (ghosts l)
                 (fun gs =>
                    assign l (with_ghosts (Some (gs ++ [g])%list)))))).
Proof.
  intros w Hw.
  destruct (beams w !! l) as [bl|] eqn:El; [|by mrun].
  destruct (__ghost_count bl) as [c|] eqn:Hc; [|by mrun].
  destruct (__ghost bl) as [[|]|] eqn:Hg; [by mrun| |by mrun].
  destruct (__ghosts bl) as [gs|] eqn:Hgs.
  - mrun. apply count_matches_put; [done|]. cbn.
    intros gs' c' [= <-] [= <-]. rewrite (Hw l bl gs c El Hgs Hc).
    rewrite length_app. simpl. lia.
  - mrun. apply count_matches_put; [done|]. cbn. by rewrite Hgs.
Qed.

Lemma count_matches_create_ghost l tag kw :
  preserves count_matches (create_ghost l tag kw).
Proof.
  unfold create_ghost.
  apply pres_bind; [unfold ghost; rstep|]. intros g.
  destruct g; [rstep|].
  unfold fwhm, dead, lmax, mmax.
  do 10 (apply pres_bind; [rstep|]; intros ?).
  apply pres_bind; [apply count_matches_new_Beam|]. intros gh.
  apply pres_bind; [unfold ghost_count; rstep|]. intros c.
  apply pres_bind.
  { apply guarded_set_ghost_idx. intros. by apply count_matches_assign. }
  intros _. apply count_matches_register.
Qed.

Lemma count_matches_act_all acts w :
  forallb (fun a => negb (assigns_ghost_count a)) acts = true ->
  count_matches w -> count_matches (act_all acts w).
Proof.
  intros Hacts.
  apply (inv_act_all count_matches
           (fun o => forall l c, o <> OpSetGhostCount l c)).
  - intros l f []; by apply count_matches_assign.
  - intros l [v|]; [by apply count_matches_assign | by intros w0].
  - intros l v _. apply guarded_set_fwhm. intros.
    by apply count_matches_assign.
  - apply guarded_set_ghost_idx. intros. by apply count_matches_assign.
  - intros l c Hne. by destruct (Hne l c).
  - apply count_matches_new_Beam.
  - apply count_matches_create_ghost.
  - by intros t0 w0.
  - by intros c w0.
  - apply Forall_forall. intros a Ha o -> l c ->.
    rewrite forallb_forall in Hacts. apply list_elem_of_In in Ha.
    by specialize (Hacts _ Ha).
Qed.


End Proofs.

(** ** The theorems on actual stores *)

Section Examples.

Import Demo.

#[local] Existing Instance collaborators.

(** The intended derivations, in numbers: a width of 43 arcmin gives the
    band limit 703, and the band limit 703 gives a width within one arcmin
    of 43. *)
Lemma derivations_at_43 :
  Float.to_int (2 * Float.pi / Float.radians (43 / 60) * 1.4)%float
  = inr 703%Z /\
  exists f,
    resolve_fwhm None 703 = inr f /\ (abs (f - 43) <? 1)%float = true.
Proof. split; [by vm_compute|]. eexists. split; by vm_compute. Qed.

(** The same formulas at 250 arcmin: band limit 120, and back to 252. *)
Lemma derivations_at_250 :
  Float.to_int (2 * Float.pi / Float.radians (250 / 60) * 1.4)%float
  = inr 120%Z /\
  exists f,
    resolve_fwhm None 120 = inr f /\ (abs (f - 250) <? 1)%float = false.
Proof.
  split; [vm_compute; reflexivity|].
  eexists. split; vm_compute; reflexivity.
Qed.

Lemma blm_cache_persists_witness :
  let ops := [OpSetFwhm main (Some 10%float); OpSetLmax main (Some 20%Z);
              OpSetBtype main "PO"; OpCreateGhost main None no_kwargs;
              OpGetBlm main] in
  exists t,
    blms w_cached !! 0 = Some t /\
    blm main w_cached = (Ret 0, w_cached) /\
    let w' := perform_all ops w_cached in
    blm main w' = (Ret 0, w') /\ blms w' !! 0 = Some t.
Proof.
  intros ops. eexists. split; [vm_compute; reflexivity|].
  destruct (blm_cache_persists w_cached main _ 0 _ ops
              ltac:(vm_compute; reflexivity) ltac:(vm_compute; reflexivity)
              ltac:(vm_compute; reflexivity)) as (Hread & Hkeep & _).
  split; [exact Hread|]. apply Hkeep. vm_compute. reflexivity.
Defined.

Lemma invalid_role_operations_witness :
  (forall c, set_ghost_count first_ghost c w_family
             = (Raise (NameError "ValueErrror"), w_family)) /\
  (forall v, set_ghosts first_ghost v w_family
             = (Raise (AttributeError "can't set attribute"), w_family)) /\
  (forall tag kw, create_ghost first_ghost tag kw w_family
                  = (Raise (RuntimeError "Ghost cannot have ghosts"),
                     w_family)) /\
  (forall v, set_ghost_idx main v w_family
             = (Raise (ValueError "main beam cannot have ghost_idx"),
                w_family)) /\
  ghost_idx main w_family
  = (Raise (AttributeError "_Beam__ghost_idx"), w_family).
Proof.
  eapply (invalid_role_operations w_family first_ghost _ main _);
    by vm_compute.
Defined.

Lemma dead_reaches_the_ghosts_of_the_moment_witness :
  (exists w',
     set_dead main true w_family = (Ret tt, w') /\
     (exists bp, beams w' !! main = Some bp /\ __dead bp = Some true) /\
     (forall g, g ∈ [first_ghost] ->
        exists bg, beams w' !! g = Some bg /\ __dead bg = Some true)) /\
  (exists g bg bp,
     beams w_family_dead !! g = None /\
     beams w_family_late !! g = Some bg /\
     __dead bg = Some false /\
     beams w_family_late !! main = Some bp /\
     __ghosts bp = Some [first_ghost; g] /\
     __dead bp = Some true /\
     forall l, l <> main -> l <> g ->
               beams w_family_late !! l = beams w_family_dead !! l).
Proof.
  eapply (dead_reaches_the_ghosts_of_the_moment
            w_family main _ [first_ghost] true
            w_family_dead main _ [first_ghost] true (Some "late")
            (kw_dead false) w_family_late);
    try by vm_compute.
  intros g Hg. apply list_elem_of_singleton in Hg as ->.
  eexists. by vm_compute.
Defined.

Lemma create_ghost_registers_witness :
  exists w' g bg,
    create_ghost main (Some "ghost") no_kwargs w_main = (Ret tt, w') /\
    beams w' !! g = Some bg /\ __ghost_idx bg = Some 0%Z /\
    name bg = Some "ghost".
Proof.
  destruct (create_ghost_registers w_main main main_beam
              ltac:(vm_compute; reflexivity) ltac:(reflexivity))
    as [Htot Hspec].
  destruct (Htot (Some "ghost") _ false 700%Z 700%Z 0%Z []
              ltac:(reflexivity) ltac:(vm_compute; reflexivity)
              ltac:(reflexivity) ltac:(reflexivity) ltac:(reflexivity)
              ltac:(reflexivity) ltac:(reflexivity)) as [w' Hrun].
  destruct (Hspec _ _ _ Hrun)
    as (g & bg & bp & c & gs & _ & Hc & _ & Eg & _ & Hidx & _ & _ & _
        & _ & Hname & _).
  injection Hc as <-.
  exists w', g, bg.
  refine (conj Hrun (conj Eg (conj Hidx _))).
  apply Hname; [reflexivity|discriminate|by left].
Defined.

(** After [main.lmax = 10], [second.reuse_blm(main)] leaves [second.mmax]
    at 10 while [main.mmax] is still 700. *)
Lemma reuse_blm_mmax_differs :
  reuse_blm second (PyBeam main) w_pair_narrow = (Ret tt, w_pair_shared) /\
  mmax second w_pair_shared = (Ret 10%Z, w_pair_shared) /\
  mmax main w_pair_shared = (Ret 700%Z, w_pair_shared) /\
  fst (mmax second w_pair_shared) <> fst (mmax main w_pair_shared).
Proof.
  split; [|split; [|split]]; try (vm_compute; reflexivity).
  vm_compute. discriminate.
Qed.

Lemma reuse_blm_aliases_witness :
  exists w',
    reuse_blm second (PyBeam main) w_pair = (Ret tt, w') /\
    (exists bs' bp' r,
       beams w' !! second = Some bs' /\ beams w' !! main = Some bp' /\
       __blm bs' = Some r /\ __blm bp' = Some r) /\
    reuse_blm second PyNone w_pair
    = (Raise (TypeError "partner must be Beam object"), w_pair).
Proof.
  assert (exists w', reuse_blm second (PyBeam main) w_pair = (Ret tt, w'))
    as [w' Hrun] by (eexists; vm_compute; reflexivity).
  exists w'. split; [exact Hrun|].
  destruct (reuse_blm_aliases w_pair second main main_beam main_beam w'
              PyNone ltac:(vm_compute; reflexivity)
              ltac:(vm_compute; reflexivity) Hrun)
    as [(bs' & bp' & r & lm & mm & Es & Ep & Hbs & Hbp & _) Herr].
  split.
  - exists bs', bp', r. exact (conj Es (conj Ep (conj Hbs Hbp))).
  - apply Herr. intros l. discriminate.
Defined.

Lemma delete_blm_on_ghost_raises_witness :
  delete_blm first_ghost true w_family
  = (Raise (AttributeError "_Beam__ghosts"), w_family).
Proof.
  by erewrite (delete_blm_on_ghost_raises w_family first_ghost _ true);
    [|by vm_compute|by vm_compute].
Defined.

(** A beam of amplitude 2 and keywords that carry [c2_fwhm]: the three
    rows of a file come out doubled, and [tools.scale_blm] is called
    without [c2_fwhm]; the single row of the other file comes out doubled
    and expanded, with the keywords as passed; and with [cross_pol] off
    the file of three rows is treated in the second way. *)
Lemma load_blm_paths_witness :
  (exists r w',
     load_blm main (Some "triplet") kw_all (w_loud true) = (Ret tt, w') /\
     blms w' !! r = Some ([2; 1], [0; 0.5], [0; 0.25])%float /\
     calls w' = [CallLoad "triplet.npy";
                 CallScale (mkBlmKwargs (Some true) (Some true) None)]) /\
  (exists r w',
     load_blm main (Some "copol.npy") kw_all (w_loud true) = (Ret tt, w') /\
     blms w' !! r = Some ([2; 1], [2; 1], [2; 1])%float /\
     calls w' = [CallLoad "copol.npy"; CallCopol kw_all]) /\
  (exists r w',
     load_blm main (Some "triplet.npy") kw_all (w_loud false)
     = (Ret tt, w') /\
     blms w' !! r = Some ([2; 1], [2; 1], [2; 1])%float /\
     calls w' = [CallLoad "triplet.npy"; CallCopol kw_all]).
Proof.
  split; [|split].
  - destruct (load_blm_paths (w_loud true) main (loud_beam true) "triplet"
                "triplet" EmptyString kw_all
                (Arr2 [[1; 0.5]; [0; 0.25]; [0; 0.125]]%float)
                ltac:(vm_compute; reflexivity) ltac:(vm_compute; reflexivity)
                ltac:(vm_compute; reflexivity)) as [Hcross _].
    destruct (Hcross ltac:(reflexivity) ltac:(reflexivity)
                [2; 1]%float [0; 0.5]%float [0; 0.25]%float
                ltac:(vm_compute; reflexivity) ltac:(vm_compute; reflexivity)
                ltac:(vm_compute; reflexivity))
      as (r & w' & Hrun & _ & Hr & _ & Hc).
    exists r, w'. exact (conj Hrun (conj Hr Hc)).
  - destruct (load_blm_paths (w_loud true) main (loud_beam true) "copol.npy"
                "copol" ".npy" kw_all (Arr1 [1; 0.5]%float)
                ltac:(vm_compute; reflexivity) ltac:(vm_compute; reflexivity)
                ltac:(vm_compute; reflexivity)) as [_ Hco].
    destruct (Hco ltac:(left; discriminate) [1; 0.5]%float
                ltac:(reflexivity))
      as (r & w' & Hrun & _ & Hr & _ & Hc).
    exists r, w'. exact (conj Hrun (conj Hr Hc)).
  - destruct (load_blm_paths (w_loud false) main (loud_beam false)
                "triplet.npy" "triplet" ".npy" kw_all
                (Arr2 [[1; 0.5]; [0; 0.25]; [0; 0.125]]%float)
                ltac:(vm_compute; reflexivity) ltac:(vm_compute; reflexivity)
                ltac:(vm_compute; reflexivity)) as [_ Hco].
    destruct (Hco ltac:(right; reflexivity) [1; 0.5]%float
                ltac:(reflexivity))
      as (r & w' & Hrun & _ & Hr & _ & Hc).
    exists r, w'. exact (conj Hrun (conj Hr Hc)).
Defined.

Lemma reuse_blm_materialises_partner_witness :
  (exists w' bp' r,
     reuse_blm second (PyBeam main) w_pair = (Ret tt, w') /\
     beams w' !! main = Some bp' /\ __blm bp' = Some r /\
     blms w_pair !! r = None /\ is_Some (blms w' !! r)) /\
  fst (reuse_blm main (PyBeam odd) w_odd)
  = Raise (ValueError "btype = Airy not recognized").
Proof.
  split.
  - destruct (reuse_blm_materialises_partner w_pair second main main_beam
                main_beam ltac:(vm_compute; reflexivity)
                ltac:(vm_compute; reflexivity) ltac:(reflexivity))
      as (Hmat & _ & Htot).
    destruct (Htot _ 700%Z 700%Z
                ltac:(reflexivity) ltac:(reflexivity) ltac:(reflexivity)
                ltac:(reflexivity) ltac:(reflexivity)) as [w' Hrun].
    destruct (Hmat w' Hrun)
      as (bs' & bp' & r & Ep & Hbp & _ & _ & _ & Hnew & Hsome & _).
    exists w', bp', r.
    exact (conj Hrun (conj Ep (conj Hbp (conj Hnew Hsome)))).
  - destruct (reuse_blm_materialises_partner w_odd main odd main_beam
                (with_btype "Airy" main_beam) ltac:(vm_compute; reflexivity)
                ltac:(vm_compute; reflexivity) ltac:(reflexivity))
      as (_ & Herr & _).
    apply (Herr false false); try reflexivity; discriminate.
Defined.

End Examples.

(** ** The further properties on actual stores *)

Section Sessions.

Import Demo.

#[local] Existing Instance collaborators.

Lemma w_empty_no_beams l : beams w_empty !! l = None.
Proof. apply lookup_empty. Qed.





















End Sessions.
